(** * Procedural terrain streaming and object placement (Comp3016)

    A shallow embedding of [TerrainGenerator.cpp], [TerrainPlacement.cpp] and
    [LayoutManager.cpp], and the properties of the chunk store, the placement
    resolver and the zone planner.

    Numbers.  The C++ [float] is IEEE-754 binary32; it is modelled bit-exactly
    by the Standard Library's [spec_float] at precision 24 and maximal exponent
    128 (round to nearest, ties to even), so that every arithmetic step of the
    source is one operation of the model.  [int] is modelled by [Z] (signed
    overflow is undefined in C++ and is not given a meaning here);
    [unsigned int] by [Z] with the reduction modulo 2^32 written out.

    External code.  [glm::simplex] is taken as a parameter of the development
    (any function of a 2D point); the small GLM helpers ([length], [dot],
    [cross], [normalize], [mix], [max]) follow GLM's generic definitions.  The
    C library's [cos] and [sin] and the pseudo random generator are parameters
    as well. *)

From Stdlib Require Import String ZArith List Bool Lia.
From Stdlib Require Import Floats.SpecFloat.
Import ListNotations.
Open Scope Z_scope.

(** ** binary32 arithmetic *)

Module F32.

Definition float := spec_float.

Definition prec : Z := 24.
Definition emax : Z := 128.

Definition fadd : float -> float -> float := SFadd prec emax.
Definition fsub : float -> float -> float := SFsub prec emax.
Definition fmul : float -> float -> float := SFmul prec emax.
Definition fdiv : float -> float -> float := SFdiv prec emax.
Definition fsqrt : float -> float := SFsqrt prec emax.
Definition fabs : float -> float := SFabs.
Definition fneg : float -> float := SFopp.

  (** [a < b], [a <= b] and [a > b] of C++: false as soon as one side is NaN. *)
Definition flt : float -> float -> bool := SFltb.
Definition fle : float -> float -> bool := SFleb.
Definition fgt (a b : float) : bool := SFltb b a.

Definition is_nan (a : float) : bool :=
    match a with S754_nan => true | _ => false end.

  (** Conversion [int -> float] (round to nearest even). *)
Definition of_int (z : Z) : float := binary_normalize prec emax z 0 false.

Definition INT_MIN : Z := - 2 ^ 31.

  (** [static_cast<int>(f)]: truncation toward zero.  Outside the range of
      [int] (and for NaN and the infinities) C++ leaves the result undefined;
      the model returns what the x86 conversion instruction returns. *)
Definition to_int (f : float) : Z :=
    match f with
    | S754_zero _ => 0
    | S754_finite s m e =>
        let a := match e with
                 | Z0 => Zpos m
                 | Zpos _ => Zpos m * 2 ^ e
                 | Zneg p => Zpos m / 2 ^ Zpos p
                 end in
        if 2 ^ 31 <=? a then INT_MIN else if s then - a else a
    | _ => INT_MIN
    end.

  (** The float literal whose decimal value is [n/d]: the binary32 number
      nearest to the quotient (both [n] and [d] are exactly representable). *)
Definition lit (n d : Z) : float := fdiv (of_int n) (of_int d).

Definition zero : float := S754_zero false.
Definition one : float := of_int 1.

  (** [glm::max(x, y)] (and [std::max]): [(x < y) ? y : x]. *)
Definition fmax (x y : float) : float := if flt x y then y else x.

End F32.
Import F32.

(** ** The C++ [double], for the expressions that involve [M_PI] *)

Module F64.

Definition prec : Z := 53.
Definition emax : Z := 1024.

Definition dmul : spec_float -> spec_float -> spec_float := SFmul prec emax.
Definition ddiv : spec_float -> spec_float -> spec_float := SFdiv prec emax.
Definition of_int (z : Z) : spec_float := binary_normalize prec emax z 0 false.

  (** [float -> double] is exact; the mantissa is re-aligned to 53 bits. *)
Definition of_float (f : float) : spec_float :=
    match f with
    | S754_finite s m e => binary_round prec emax s m e
    | _ => f
    end.

  (** [double -> float] rounds to nearest even. *)
Definition to_float (d : spec_float) : float :=
    match d with
    | S754_finite s m e => binary_round F32.prec F32.emax s m e
    | _ => d
    end.

  (** [M_PI = 3.14159265358979323846] as a double. *)
Definition M_PI : spec_float := S754_finite false 7074237752028440 (-51).

End F64.

(** ** GLM vectors *)

Module glm.

Record vec2 := mkvec2 { x2 : float; y2 : float }.
Record vec3 := mkvec3 { vx : float; vy : float; vz : float }.

Definition vec3_splat (a : float) : vec3 := mkvec3 a a a.

Definition sub2 (a b : vec2) : vec2 :=
    mkvec2 (fsub (x2 a) (x2 b)) (fsub (y2 a) (y2 b)).
Definition add3 (a b : vec3) : vec3 :=
    mkvec3 (fadd (vx a) (vx b)) (fadd (vy a) (vy b)) (fadd (vz a) (vz b)).
Definition sub3 (a b : vec3) : vec3 :=
    mkvec3 (fsub (vx a) (vx b)) (fsub (vy a) (vy b)) (fsub (vz a) (vz b)).
Definition scale3 (a : vec3) (k : float) : vec3 :=
    mkvec3 (fmul (vx a) k) (fmul (vy a) k) (fmul (vz a) k).

Definition dot2 (a b : vec2) : float :=
    fadd (fmul (x2 a) (x2 b)) (fmul (y2 a) (y2 b)).
Definition dot3 (a b : vec3) : float :=
    fadd (fadd (fmul (vx a) (vx b)) (fmul (vy a) (vy b))) (fmul (vz a) (vz b)).

Definition length2 (a : vec2) : float := fsqrt (dot2 a a).
Definition length3 (a : vec3) : float := fsqrt (dot3 a a).

Definition cross (a b : vec3) : vec3 :=
    mkvec3 (fsub (fmul (vy a) (vz b)) (fmul (vy b) (vz a)))
           (fsub (fmul (vz a) (vx b)) (fmul (vz b) (vx a)))
           (fsub (fmul (vx a) (vy b)) (fmul (vx b) (vy a))).

Definition inversesqrt (a : float) : float := fdiv one (fsqrt a).
Definition normalize (a : vec3) : vec3 := scale3 a (inversesqrt (dot3 a a)).

Definition mix (a b : vec3) (k : float) : vec3 :=
    add3 (scale3 a (fsub one k)) (scale3 b k).

  (** [glm::radians]: degrees times the [float] nearest to pi/180. *)
Definition radians (degrees : float) : float :=
    fmul degrees (S754_finite false 9370165 (-29)).

End glm.
Import glm.

(** ** Loops and vectors *)

(** The values of [i] in [for (int i = lo; i < lo + n; i++)]. *)
Definition zrange (lo n : Z) : list Z :=
  map (fun k => lo + Z.of_nat k) (seq 0 (Z.to_nat n)).

(** [v[i] = f(v[i])] on a [std::vector]; an index past the end is undefined in
    the source and leaves the vector as it is here. *)
Fixpoint update_at {A : Type} (i : nat) (f : A -> A) (l : list A) : list A :=
  match l, i with
  | [], _ => []
  | a :: l', O => f a :: l'
  | a :: l', S i' => a :: update_at i' f l'
  end.

(** Conversion to [unsigned int], and its addition. *)
Definition to_u32 (z : Z) : Z := z mod 2 ^ 32.
Definition u32_add (a b : Z) : Z := (a + b) mod 2 ^ 32.

(** ** TerrainGenerator.h: the data model *)

Record TerrainVertex := mkTerrainVertex {
  position : vec3;
  normal : vec3;
  texCoord : vec2;
  color : vec3
}.

Inductive BiomeType := GRASSLAND | MOUNTAIN | DESERT | FOREST.

(** The OpenGL buffer names [VAO], [VBO], [EBO] of a chunk belong to the
    graphics driver; no operation below reads them and they are left out. *)
Record TerrainChunk := mkTerrainChunk {
  vertices : list TerrainVertex;
  indices : list Z;
  biome : BiomeType;
  isGenerated : bool
}.

Record TerrainGenerator := mkTerrainGenerator {
  m_chunkSize : Z;
  m_chunkScale : float;
  m_noiseScale : float;
  m_heightScale : float;
  m_octaves : Z;
  m_chunks : list TerrainChunk;
  m_lastCenterPos : vec2;
  m_renderDistance : float;
  m_terrainUpdated : bool
}.

Definition default_vertex : TerrainVertex :=
  mkTerrainVertex (vec3_splat zero) (vec3_splat zero) (mkvec2 zero zero) (vec3_splat zero).

(** [TerrainGenerator::TerrainGenerator(chunkSize, chunkScale)] *)
Definition TerrainGenerator_new (chunkSize : Z) (chunkScale : float) : TerrainGenerator :=
  {| m_chunkSize := chunkSize;
     m_chunkScale := chunkScale;
     m_noiseScale := lit 5 100;
     m_heightScale := of_int 10;
     m_octaves := 4;
     m_chunks := [];
     m_lastCenterPos := mkvec2 (of_int (-9999)) (of_int (-9999));
     m_renderDistance := of_int 100;
     m_terrainUpdated := false |}.

Definition SetNoiseScale (t : TerrainGenerator) (scale : float) : TerrainGenerator :=
  {| m_chunkSize := m_chunkSize t; m_chunkScale := m_chunkScale t;
     m_noiseScale := scale; m_heightScale := m_heightScale t;
     m_octaves := m_octaves t; m_chunks := m_chunks t;
     m_lastCenterPos := m_lastCenterPos t;
     m_renderDistance := m_renderDistance t;
     m_terrainUpdated := m_terrainUpdated t |}.

Definition SetHeightScale (t : TerrainGenerator) (scale : float) : TerrainGenerator :=
  {| m_chunkSize := m_chunkSize t; m_chunkScale := m_chunkScale t;
     m_noiseScale := m_noiseScale t; m_heightScale := scale;
     m_octaves := m_octaves t; m_chunks := m_chunks t;
     m_lastCenterPos := m_lastCenterPos t;
     m_renderDistance := m_renderDistance t;
     m_terrainUpdated := m_terrainUpdated t |}.

Definition SetOctaves (t : TerrainGenerator) (octaves : Z) : TerrainGenerator :=
  {| m_chunkSize := m_chunkSize t; m_chunkScale := m_chunkScale t;
     m_noiseScale := m_noiseScale t; m_heightScale := m_heightScale t;
     m_octaves := octaves; m_chunks := m_chunks t;
     m_lastCenterPos := m_lastCenterPos t;
     m_renderDistance := m_renderDistance t;
     m_terrainUpdated := m_terrainUpdated t |}.

Definition HasTerrainUpdated (t : TerrainGenerator) : bool := m_terrainUpdated t.

Definition ResetTerrainUpdateFlag (t : TerrainGenerator) : TerrainGenerator :=
  {| m_chunkSize := m_chunkSize t; m_chunkScale := m_chunkScale t;
     m_noiseScale := m_noiseScale t; m_heightScale := m_heightScale t;
     m_octaves := m_octaves t; m_chunks := m_chunks t;
     m_lastCenterPos := m_lastCenterPos t;
     m_renderDistance := m_renderDistance t;
     m_terrainUpdated := false |}.

(** ** TerrainGenerator.cpp: noise, biomes and chunk geometry *)

Section Terrain.

  (** [glm::simplex] on a 2D point. *)
Variable simplex : vec2 -> float.

  (** The body of the octave loop of [GetHeightNoise], [n] iterations left. *)
Fixpoint octave_loop (n : nat) (x z height amplitude frequency : float) : float :=
    match n with
    | O => height
    | S n' =>
        let height' :=
          fadd height (fmul (simplex (mkvec2 (fmul x frequency) (fmul z frequency))) amplitude) in
        octave_loop n' x z height' (fmul amplitude (lit 1 2)) (fmul frequency (of_int 2))
    end.

Definition GetHeightNoise (t : TerrainGenerator) (x z : float) : float :=
    let height := octave_loop (Z.to_nat (m_octaves t)) x z zero (m_heightScale t) (m_noiseScale t) in
    let groundLevel := fneg (lit 1 10) in
    fmax height groundLevel.

Definition GetMoistureNoise (t : TerrainGenerator) (x z : float) : float :=
    simplex (mkvec2 (fmul (fmul (fadd x (of_int 1000)) (m_noiseScale t)) (lit 1 2))
                    (fmul (fmul (fadd z (of_int 1000)) (m_noiseScale t)) (lit 1 2))).

Definition DetermineBiome (t : TerrainGenerator) (height moisture : float) : BiomeType :=
    if fgt height (fmul (m_heightScale t) (lit 6 10)) then MOUNTAIN
    else if flt moisture (fneg (lit 2 10)) then DESERT
    else if fgt moisture (lit 3 10) then FOREST
    else GRASSLAND.

Definition GetBiomeColor (t : TerrainGenerator) (b : BiomeType) (height : float) : vec3 :=
    match b with
    | GRASSLAND => mkvec3 (lit 4 10) (lit 8 10) (lit 2 10)
    | MOUNTAIN =>
        mix (vec3_splat (lit 1 2)) (vec3_splat one)
            (fmax zero (fdiv (fsub height (fmul (m_heightScale t) (lit 7 10)))
                             (fmul (m_heightScale t) (lit 3 10))))
    | DESERT => mkvec3 (lit 9 10) (lit 8 10) (lit 4 10)
    | FOREST => mkvec3 (lit 2 10) (lit 6 10) (lit 1 10)
    end.

Definition GetHeightAt (t : TerrainGenerator) (x z : float) : float :=
    GetHeightNoise t x z.

  (** The vertex that the first loop nest of [GenerateChunkVertices] pushes at
      grid point [(x, z)] of chunk [(chunkX, chunkZ)]. *)
Definition chunk_vertex (t : TerrainGenerator) (chunkX chunkZ x z : Z) : TerrainVertex :=
    let startX := fmul (of_int chunkX) (m_chunkScale t) in
    let startZ := fmul (of_int chunkZ) (m_chunkScale t) in
    let stepSize := fdiv (m_chunkScale t) (of_int (m_chunkSize t - 1)) in
    let worldX := fadd startX (fmul (of_int x) stepSize) in
    let worldZ := fadd startZ (fmul (of_int z) stepSize) in
    let height := GetHeightNoise t worldX worldZ in
    {| position := mkvec3 worldX height worldZ;
       texCoord := mkvec2 (fdiv (of_int x) (of_int (m_chunkSize t - 1)))
                          (fdiv (of_int z) (of_int (m_chunkSize t - 1)));
       normal := mkvec3 zero one zero;
       color := vec3_splat (lit 1 2) |}.

  (** The six indices that the second loop nest pushes for cell [(x, z)]. *)
Definition cell_indices (t : TerrainGenerator) (x z : Z) : list Z :=
    let topLeft := to_u32 (z * m_chunkSize t + x) in
    let topRight := u32_add topLeft 1 in
    let bottomLeft := to_u32 ((z + 1) * m_chunkSize t + x) in
    let bottomRight := u32_add bottomLeft 1 in
    [topLeft; bottomLeft; topRight; topRight; bottomLeft; bottomRight].

Definition GenerateChunkVertices (t : TerrainGenerator) (chunk : TerrainChunk)
      (chunkX chunkZ : Z) : TerrainChunk :=
    {| vertices :=
         flat_map (fun z => map (fun x => chunk_vertex t chunkX chunkZ x z)
                                (zrange 0 (m_chunkSize t)))
                  (zrange 0 (m_chunkSize t));
       indices :=
         flat_map (fun z => flat_map (fun x => cell_indices t x z)
                                     (zrange 0 (m_chunkSize t - 1)))
                  (zrange 0 (m_chunkSize t - 1));
       biome := biome chunk;
       isGenerated := isGenerated chunk |}.

Definition set_normal (n : vec3) (v : TerrainVertex) : TerrainVertex :=
    {| position := position v; normal := n; texCoord := texCoord v; color := color v |}.
Definition add_normal (n : vec3) (v : TerrainVertex) : TerrainVertex :=
    set_normal (add3 (normal v) n) v.
Definition set_color (c : vec3) (v : TerrainVertex) : TerrainVertex :=
    {| position := position v; normal := normal v; texCoord := texCoord v; color := c |}.

  (** The triangle loop of [CalculateNormals] ([i += 3]); it reads three
      indices at a time and stops at the end of the index list. *)
Fixpoint accumulate_normals (idx : list Z) (vs : list TerrainVertex) : list TerrainVertex :=
    match idx with
    | i0 :: i1 :: i2 :: rest =>
        let v0 := position (nth (Z.to_nat i0) vs default_vertex) in
        let v1 := position (nth (Z.to_nat i1) vs default_vertex) in
        let v2 := position (nth (Z.to_nat i2) vs default_vertex) in
        let n := normalize (cross (sub3 v1 v0) (sub3 v2 v0)) in
        let vs := update_at (Z.to_nat i0) (add_normal n) vs in
        let vs := update_at (Z.to_nat i1) (add_normal n) vs in
        let vs := update_at (Z.to_nat i2) (add_normal n) vs in
        accumulate_normals rest vs
    | _ => vs
    end.

Definition CalculateNormals (chunk : TerrainChunk) : TerrainChunk :=
    let vs := map (set_normal (vec3_splat zero)) (vertices chunk) in
    let vs := accumulate_normals (indices chunk) vs in
    {| vertices := map (fun v => set_normal (normalize (normal v)) v) vs;
       indices := indices chunk;
       biome := biome chunk;
       isGenerated := isGenerated chunk |}.

Definition vertex_biome (t : TerrainGenerator) (v : TerrainVertex) : BiomeType :=
    DetermineBiome t (vy (position v))
                   (GetMoistureNoise t (vx (position v)) (vz (position v))).

Definition AssignBiomeColors (t : TerrainGenerator) (chunk : TerrainChunk) : TerrainChunk :=
    {| vertices :=
         map (fun v => set_color (GetBiomeColor t (vertex_biome t v) (vy (position v))) v)
             (vertices chunk);
       indices := indices chunk;
       biome :=
         match nth_error (vertices chunk) (Nat.div (length (vertices chunk)) 2) with
         | Some v => vertex_biome t v
         | None => biome chunk
         end;
       isGenerated := isGenerated chunk |}.

  (** [CreateChunk]: [SetupChunkBuffers] only talks to the graphics driver. *)
Definition CreateChunk (t : TerrainGenerator) (chunkX chunkZ : Z) : TerrainChunk :=
    let chunk := mkTerrainChunk [] [] GRASSLAND false in
    let chunk := GenerateChunkVertices t chunk chunkX chunkZ in
    let chunk := CalculateNormals chunk in
    let chunk := AssignBiomeColors t chunk in
    {| vertices := vertices chunk; indices := indices chunk;
       biome := biome chunk; isGenerated := true |}.

  (** ** The chunk store *)

  (** The test of the innermost loop of [GenerateTerrainAt]: does [chunk] sit
      at grid coordinates [(x, z)]?  ([abs(i) < 1] on [int].) *)
Definition chunk_at (t : TerrainGenerator) (x z : Z) (chunk : TerrainChunk) : bool :=
    let v0 := position (nth 0 (vertices chunk) default_vertex) in
    (Z.abs (to_int (fdiv (vx v0) (m_chunkScale t)) - x) <? 1) &&
    (Z.abs (to_int (fdiv (vz v0) (m_chunkScale t)) - z) <? 1).

  (** One pass of the body of the two window loops: create the chunk at
      [(x, z)] unless the scan finds one there.  The state is the chunk vector
      and the local flag [newChunksGenerated]. *)
Definition window_step (t : TerrainGenerator) (st : list TerrainChunk * bool)
      (xz : Z * Z) : list TerrainChunk * bool :=
    let '(chunks, newChunksGenerated) := st in
    let '(x, z) := xz in
    if existsb (chunk_at t x z) chunks then (chunks, newChunksGenerated)
    else (chunks ++ [CreateChunk t x z], true).

  (** The grid coordinates of the window, in the order the loops visit them. *)
Definition window (centerChunkX centerChunkZ radius : Z) : list (Z * Z) :=
    flat_map (fun x => map (fun z => (x, z))
                           (zrange (centerChunkZ - radius) (2 * radius + 1)))
             (zrange (centerChunkX - radius) (2 * radius + 1)).

  (** Lines 46-47 of [GenerateTerrainAt]. *)
Definition centerChunk (t : TerrainGenerator) (centerPos : vec2) : Z * Z :=
    (to_int (fdiv (x2 centerPos) (m_chunkScale t)),
     to_int (fdiv (y2 centerPos) (m_chunkScale t))).

  (** The predicate of [CleanupDistantChunks]: [true] when the chunk is
      removed. *)
Definition is_distant (t : TerrainGenerator) (centerPos : vec2) (chunk : TerrainChunk) : bool :=
    match nth_error (vertices chunk) (Nat.div (length (vertices chunk)) 2) with
    | None => true
    | Some v =>
        let chunkCenter := position v in
        let distance :=
          length2 (mkvec2 (fsub (vx chunkCenter) (x2 centerPos))
                          (fsub (vz chunkCenter) (y2 centerPos))) in
        fgt distance (fmul (m_renderDistance t) (lit 3 2))
    end.

Definition CleanupDistantChunks (t : TerrainGenerator) (centerPos : vec2)
      (chunks : list TerrainChunk) : list TerrainChunk :=
    filter (fun c => negb (is_distant t centerPos c)) chunks.

  (** The hysteresis test at the top of [GenerateTerrainAt]. *)
Definition moved_too_little (t : TerrainGenerator) (centerPos : vec2) : bool :=
    flt (length2 (sub2 centerPos (m_lastCenterPos t))) (fmul (m_chunkScale t) (lit 1 2)).

  (** The chunk vector and the flag [newChunksGenerated] after the window
      loops of an accepted call. *)
Definition window_loops (t : TerrainGenerator) (centerPos : vec2) : list TerrainChunk * bool :=
    let '(cx, cz) := centerChunk t centerPos in
    fold_left (window_step t) (window cx cz 3) (m_chunks t, false).

Definition GenerateTerrainAt (t : TerrainGenerator) (centerPos : vec2) : TerrainGenerator :=
    if moved_too_little t centerPos then t
    else
      let '(chunks, newChunksGenerated) := window_loops t centerPos in
      {| m_chunkSize := m_chunkSize t; m_chunkScale := m_chunkScale t;
         m_noiseScale := m_noiseScale t; m_heightScale := m_heightScale t;
         m_octaves := m_octaves t;
         m_chunks := CleanupDistantChunks t centerPos chunks;
         m_lastCenterPos := centerPos;
         m_renderDistance := m_renderDistance t;
         m_terrainUpdated := if newChunksGenerated then true else m_terrainUpdated t |}.

Definition UpdateLOD (t : TerrainGenerator) (cameraPos : vec3) : TerrainGenerator :=
    GenerateTerrainAt t (mkvec2 (vx cameraPos) (vz cameraPos)).

Definition IsChunkVisible (t : TerrainGenerator) (chunkX chunkZ : Z) (cameraPos : vec3) : bool :=
    let chunkCenterX :=
      fadd (fmul (of_int chunkX) (m_chunkScale t)) (fmul (m_chunkScale t) (lit 1 2)) in
    let chunkCenterZ :=
      fadd (fmul (of_int chunkZ) (m_chunkScale t)) (fmul (m_chunkScale t) (lit 1 2)) in
    let distance :=
      length2 (mkvec2 (fsub chunkCenterX (vx cameraPos)) (fsub chunkCenterZ (vz cameraPos))) in
    fle distance (m_renderDistance t).

  (** [GetCollisionData]: the loop over the chunks, with the running
      [vertexOffset]; [vs] and [ixs] are the output vectors. *)
Fixpoint collect (chunks : list TerrainChunk) (vertexOffset : Z)
      (vs : list vec3) (ixs : list Z) : list vec3 * list Z :=
    match chunks with
    | [] => (vs, ixs)
    | chunk :: rest =>
        if negb (isGenerated chunk) then collect rest vertexOffset vs ixs
        else
          collect rest
                  (u32_add vertexOffset (to_u32 (Z.of_nat (length (vertices chunk)))))
                  (vs ++ map position (vertices chunk))
                  (ixs ++ map (fun index => u32_add index vertexOffset) (indices chunk))
    end.

  (** [vertices0] and [indices0] are what the caller's vectors hold on entry. *)
Definition GetCollisionData (t : TerrainGenerator) (vertices0 : list vec3)
      (indices0 : list Z) : list vec3 * list Z :=
    collect (m_chunks t) 0 [] [].

End Terrain.

(** The public operations that change a generator, as a caller issues them. *)
Inductive Op :=
| OpGenerateTerrainAt (centerPos : vec2)
| OpUpdateLOD (cameraPos : vec3)
| OpResetTerrainUpdateFlag
| OpSetNoiseScale (scale : float)
| OpSetHeightScale (scale : float)
| OpSetOctaves (octaves : Z).

Definition is_reset (op : Op) : bool :=
  match op with OpResetTerrainUpdateFlag => true | _ => false end.

Definition step (simplex : vec2 -> float) (t : TerrainGenerator) (op : Op) : TerrainGenerator :=
  match op with
  | OpGenerateTerrainAt c => GenerateTerrainAt simplex t c
  | OpUpdateLOD p => UpdateLOD simplex t p
  | OpResetTerrainUpdateFlag => ResetTerrainUpdateFlag t
  | OpSetNoiseScale s => SetNoiseScale t s
  | OpSetHeightScale s => SetHeightScale t s
  | OpSetOctaves o => SetOctaves t o
  end.

Definition run (simplex : vec2 -> float) (t : TerrainGenerator) (ops : list Op) : TerrainGenerator :=
  fold_left (step simplex) ops t.

(** The states a program can observe: [m_chunks] is private, so every state
    is the constructor's followed by public operations. *)
Definition reachable (simplex : vec2 -> float) (t : TerrainGenerator) : Prop :=
  exists chunkSize chunkScale ops,
    t = run simplex (TerrainGenerator_new chunkSize chunkScale) ops.

(** The chunk a world position lies in when the quotient is rounded toward
    minus infinity, as the data model of the specification words it. *)
Definition floor_to_int (f : float) : Z :=
  match f with
  | S754_zero _ => 0
  | S754_finite s m e =>
      let a := if s then Zneg m else Zpos m in
      match e with
      | Z0 => a
      | Zpos _ => a * 2 ^ e
      | Zneg p => a / 2 ^ Zpos p
      end
  | _ => INT_MIN
  end.

Definition centerChunk_floor (t : TerrainGenerator) (centerPos : vec2) : Z * Z :=
  (floor_to_int (fdiv (x2 centerPos) (m_chunkScale t)),
   floor_to_int (fdiv (y2 centerPos) (m_chunkScale t))).

(** ** TerrainPlacement.cpp *)

Section Placement.

Variable simplex : vec2 -> float.
  (** [cos] and [sin] at a [float] argument (the [float] overloads of
      [<cmath>]). *)
Variables cosf sinf : float -> float.

  (** A [TerrainGenerator*] is [None] when null. *)
Definition PlaceOnTerrain (pos : vec3) (terrain : option TerrainGenerator)
      (objectHeight : float) : vec3 :=
    match terrain with
    | None => pos
    | Some t =>
        let terrainHeight := GetHeightAt simplex t (vx pos) (vz pos) in
        let safetyOffset := one in
        let y := fadd (fadd terrainHeight objectHeight) safetyOffset in
        let minHeight := lit 1 2 in
        mkvec3 (vx pos) (if flt y minHeight then minHeight else y) (vz pos)
    end.

  (** [(2.0f * M_PI * i) / checkPoints], computed in [double] and stored in a
      [float]. *)
Definition sample_angle (i checkPoints : Z) : float :=
    F64.to_float
      (F64.ddiv (F64.dmul (F64.dmul (F64.of_float (of_int 2)) F64.M_PI) (F64.of_int i))
                (F64.of_int checkPoints)).

  (** One pass of the loop of [GetAreaHeightVariation].  The unqualified
      [abs] is taken at its [float] overload of [<cmath>], as [cos] and [sin]
      are. *)
Definition variation_step (center : vec3) (t : TerrainGenerator) (checkRadius : float)
      (centerHeight : float) (maxDiff : float) (i : Z) : float :=
    let angle := sample_angle i 8 in
    let checkX := fadd (vx center) (fmul checkRadius (cosf angle)) in
    let checkZ := fadd (vz center) (fmul checkRadius (sinf angle)) in
    let checkHeight := GetHeightAt simplex t checkX checkZ in
    let heightDiff := fabs (fsub checkHeight centerHeight) in
    fmax maxDiff heightDiff.

Definition GetAreaHeightVariation (center : vec3) (terrain : option TerrainGenerator)
      (checkRadius : float) : float :=
    match terrain with
    | None => zero
    | Some t =>
        let centerHeight := GetHeightAt simplex t (vx center) (vz center) in
        fold_left (variation_step center t checkRadius centerHeight) (zrange 0 8) zero
    end.

Definition IsPositionFlat (pos : vec3) (terrain : option TerrainGenerator)
      (tolerance : float) : bool :=
    match terrain with
    | None => false
    | Some _ => fle (GetAreaHeightVariation pos terrain (of_int 2)) tolerance
    end.

  (** One pass of the inner loop of [FindNearbyFlatPosition], at the given
      [radius] and [angle] (in degrees).  The state is [bestPosition] and
      [minVariation]; the result is the new state, or the position that the
      pass returns from the function. *)
Definition probe (center : vec3) (t : TerrainGenerator) (radius angle : float)
      (st : vec3 * float) : (vec3 * float) + vec3 :=
    let '(bestPosition, minVariation) := st in
    let rad := radians angle in
    let testPos := mkvec3 (fadd (vx center) (fmul radius (cosf rad)))
                          (vy center)
                          (fadd (vz center) (fmul radius (sinf rad))) in
    let variation := GetAreaHeightVariation testPos (Some t) (lit 3 2) in
    if flt variation minVariation then
      let bestPosition :=
        mkvec3 (vx testPos) (GetHeightAt simplex t (vx testPos) (vz testPos)) (vz testPos) in
      if fle variation (lit 3 10) then inr bestPosition
      else inl (bestPosition, variation)
    else inl st.

  (** [for (float angle = ...; angle < 360.0f; angle += 30.0f)], at most
      [fuel] passes; [None] when the passes run out. *)
Fixpoint angle_loop (fuel : nat) (center : vec3) (t : TerrainGenerator)
      (radius angle : float) (st : vec3 * float) : option ((vec3 * float) + vec3) :=
    match fuel with
    | O => None
    | S fuel' =>
        if flt angle (of_int 360) then
          match probe center t radius angle st with
          | inr p => Some (inr p)
          | inl st' => angle_loop fuel' center t radius (fadd angle (of_int 30)) st'
          end
        else Some (inl st)
    end.

  (** [for (float radius = ...; radius <= searchRadius; radius += 1.0f)], at
      most [fuel] passes, each with [budget] passes for its inner loop. *)
Fixpoint radius_loop (fuel budget : nat) (center : vec3) (t : TerrainGenerator)
      (searchRadius radius : float) (st : vec3 * float) : option vec3 :=
    match fuel with
    | O => None
    | S fuel' =>
        if fle radius searchRadius then
          match angle_loop budget center t radius zero st with
          | None => None
          | Some (inr p) => Some p
          | Some (inl st') =>
              radius_loop fuel' budget center t searchRadius (fadd radius one) st'
          end
        else Some (fst st)
    end.

  (** [FindNearbyFlatPosition]; [None] when [fuel] passes of a loop do not
      reach its end. *)
Definition FindNearbyFlatPosition (fuel : nat) (center : vec3)
      (terrain : option TerrainGenerator) (searchRadius : float) : option vec3 :=
    match terrain with
    | None => Some center
    | Some t =>
        let centerHeight := GetHeightAt simplex t (vx center) (vz center) in
        let bestPosition := mkvec3 (vx center) centerHeight (vz center) in
        let minVariation := GetAreaHeightVariation center terrain (lit 3 2) in
        if fle minVariation (lit 3 10) then Some bestPosition
        else radius_loop fuel fuel center t searchRadius one (bestPosition, minVariation)
    end.

End Placement.

(** ** LayoutManager.cpp *)

Module LayoutManager.

Record LayoutObject := mkLayoutObject {
    position : vec3;
    rotation : vec3;
    scale : vec3;
    type : string;
    theme : string
  }.

Record LayoutZone := mkLayoutZone {
    center : vec3;
    radius : float;
    zone_theme : string;
    objectPositions : list vec3;
    maxObjects : Z;
    minDistance : float
  }.

Definition CreateZonedLayout : list LayoutZone :=
    let coreZone :=
      mkLayoutZone (mkvec3 zero zero zero) (of_int 8) "treasure" [] 3 (of_int 2) in
    let forestZone :=
      mkLayoutZone (mkvec3 (of_int 15) zero (of_int 15)) (of_int 12) "forest" [] 6 (of_int 3) in
    let desertZone :=
      mkLayoutZone (mkvec3 (of_int 15) zero (of_int (-15))) (of_int 12) "desert" [] 4 (of_int 4) in
    let mountainZone :=
      mkLayoutZone (mkvec3 (of_int (-15)) zero (of_int 15)) (of_int 12) "mountain" [] 3 (of_int 5) in
    let grasslandZone :=
      mkLayoutZone (mkvec3 (of_int (-15)) zero (of_int (-15))) (of_int 12) "grassland" []
                   5 (lit 35 10) in
    [coreZone; forestZone; desertZone; mountainZone; grasslandZone].

  (** The distance the spacing test measures. *)
Definition distance (a b : vec3) : float := length3 (sub3 a b).

Definition CheckMinimumDistance (newPos : vec3) (existingPositions : list vec3)
      (minDist : float) : bool :=
    forallb (fun pos => negb (flt (distance newPos pos) minDist)) existingPositions.

Definition IsWithinTerrainBounds (pos : vec3) : bool :=
    let terrainSize := of_int 40 in
    fle (fabs (vx pos)) terrainSize && fle (fabs (vz pos)) terrainSize.

Section Place.

Variable simplex : vec2 -> float.
Variables cosf sinf : float -> float.

    (** The generator [std::mt19937] and the draws of the two distribution
        classes: [uniform_real a b g] and [uniform_int a b g] return the value
        drawn and the state the generator is left in. *)
Variable Gen : Type.
Variable uniform_real : float -> float -> Gen -> float * Gen.
Variable uniform_int : Z -> Z -> Gen -> Z * Gen.

    (** The member [terrainGenerator], as the object it points to is when
        the zone is filled. *)
Variable terrainGenerator : option TerrainGenerator.

Definition two_pi : float :=
      F64.to_float (F64.dmul (F64.of_float (of_int 2)) F64.M_PI).

Definition angleDist : Gen -> float * Gen := uniform_real zero two_pi.
Definition radiusDist : Gen -> float * Gen := uniform_real (lit 3 10) (lit 9 10).

Definition maxAttempts : nat := 50.

    (** The [while] loop of [PlaceObjectsInZone] with [attempts] passes left;
        the result is [validPosition], [position], [usedPositions] and the
        generator. *)
Fixpoint attempt_loop (zone : LayoutZone) (attempts : nat) (pos : vec3)
        (usedPositions : list vec3) (gen : Gen) : bool * vec3 * list vec3 * Gen :=
      match attempts with
      | O => (false, pos, usedPositions, gen)
      | S attempts' =>
          let '(angle, gen) := angleDist gen in
          let '(r, gen) := radiusDist gen in
          let radius := fmul r (radius zone) in
          let pos :=
            add3 (center zone)
                 (mkvec3 (fmul radius (cosf angle)) zero (fmul radius (sinf angle))) in
          if IsWithinTerrainBounds pos then
            let pos := PlaceOnTerrain simplex pos terrainGenerator (lit 1 2) in
            if CheckMinimumDistance pos usedPositions (minDistance zone) then
              (true, pos, usedPositions ++ [pos], gen)
            else attempt_loop zone attempts' pos usedPositions gen
          else attempt_loop zone attempts' pos usedPositions gen
      end.

    (** The object built for an accepted position. *)
Definition make_object (zone : LayoutZone) (pos : vec3) (gen : Gen) : LayoutObject * Gen :=
      let '(yaw, gen) := angleDist gen in
      if String.eqb (zone_theme zone) "treasure" then
        let '(k, gen) := uniform_int 0 1 gen in
        (mkLayoutObject pos (mkvec3 zero yaw zero) (vec3_splat one)
                        (if k =? 0 then "chest" else "key") (zone_theme zone), gen)
      else
        let '(typeChoice, gen) := uniform_int 0 2 gen in
        (mkLayoutObject pos (mkvec3 zero yaw zero) (vec3_splat one)
                        (if typeChoice =? 0 then "chest"
                         else if typeChoice =? 1 then "key" else "decoration")
                        (zone_theme zone), gen).

    (** The [for] loop over the object slots, [slots] passes left. *)
Fixpoint slot_loop (zone : LayoutZone) (slots : nat) (usedPositions : list vec3)
        (objects : list LayoutObject) (gen : Gen) : list LayoutObject * Gen :=
      match slots with
      | O => (objects, gen)
      | S slots' =>
          let '(validPosition, pos, usedPositions, gen) :=
            attempt_loop zone maxAttempts (vec3_splat zero) usedPositions gen in
          if validPosition then
            let '(obj, gen) := make_object zone pos gen in
            slot_loop zone slots' usedPositions (objects ++ [obj]) gen
          else slot_loop zone slots' usedPositions objects gen
      end.

    (** [gen] is the generator as [std::random_device] seeded it. *)
Definition PlaceObjectsInZone (zone : LayoutZone) (objects : list LayoutObject)
        (gen : Gen) : list LayoutObject * Gen :=
      slot_loop zone (Z.to_nat (maxObjects zone)) [] objects gen.

Definition IsPositionSuitable (pos : vec3) (objectType : string) : bool :=
      if negb (IsWithinTerrainBounds pos) then false
      else
        match terrainGenerator with
        | None => true
        | Some _ =>
            if negb (IsPositionFlat simplex cosf sinf pos terrainGenerator (lit 8 10)) then false
            else if String.eqb objectType "chest" then
              if negb (IsPositionFlat simplex cosf sinf pos terrainGenerator (lit 1 2))
              then false else true
            else true
        end.

End Place.

End LayoutManager.

(** ** Concrete instances, to run the model *)

(** Structural equality of two numbers (NaN equals NaN, [+0] differs from [-0]). *)
Definition float_eqb (a b : float) : bool :=
  match a, b with
  | S754_zero s, S754_zero s' => Bool.eqb s s'
  | S754_infinity s, S754_infinity s' => Bool.eqb s s'
  | S754_nan, S754_nan => true
  | S754_finite s m e, S754_finite s' m' e' => Bool.eqb s s' && Pos.eqb m m' && Z.eqb e e'
  | _, _ => false
  end.

(** A noise function that is zero everywhere. *)
Definition flat_noise (p : vec2) : float := zero.

(** The generator as [Application::InitializeTerrain] sets it up:
    [TerrainGenerator(16, 8.0f)], noise scale 0.1, height scale 2.0 and
    3 octaves. *)
Definition app_terrain : TerrainGenerator :=
  SetOctaves (SetHeightScale (SetNoiseScale (TerrainGenerator_new 16 (of_int 8)) (lit 1 10))
                             (of_int 2)) 3.

(** A small generator with the same chunk scale: 2 x 2 vertices per chunk. *)
Definition small_terrain : TerrainGenerator := TerrainGenerator_new 2 (of_int 8).

(** A generator whose chunks have 14 x 14 vertices and are 7 units wide. *)
Definition seam_terrain : TerrainGenerator := TerrainGenerator_new 14 (of_int 7).

(** A height source with a jump of 10 units at the single point (1/4, 1/4):
    one octave of unit amplitude and unit frequency over [spike_noise]. *)
Definition spike_noise (p : vec2) : float :=
  if float_eqb (x2 p) (lit 1 4) && float_eqb (y2 p) (lit 1 4) then of_int 10 else zero.

Definition spike_terrain : TerrainGenerator :=
  SetOctaves (SetHeightScale (SetNoiseScale (TerrainGenerator_new 16 (of_int 8)) one) one) 1.

(** A height source that jumps by 10 units across the line [x = 1]. *)
Definition cliff_noise (p : vec2) : float :=
  if flt (x2 p) one then zero else of_int 10.

(** [cos] and [sin], correctly rounded to binary32, at the eight angles
    [2*pi*i/8] that [GetAreaHeightVariation] samples (each line: the angle,
    its cosine, its sine); NaN at any other argument. *)
Definition trig_table : list (float * (float * float)) :=
  [ (zero, (S754_finite false 8388608 (-23), zero));
    (S754_finite false 13176795 (-24),
      (S754_finite false 11863283 (-24), S754_finite false 11863283 (-24)));
    (S754_finite false 13176795 (-23),
      (S754_finite true 12303662 (-48), S754_finite false 8388608 (-23)));
    (S754_finite false 9882596 (-22),
      (S754_finite true 11863283 (-24), S754_finite false 11863283 (-24)));
    (S754_finite false 13176795 (-22),
      (S754_finite true 8388608 (-23), S754_finite true 12303662 (-47)));
    (S754_finite false 16470993 (-22),
      (S754_finite true 11863284 (-24), S754_finite true 11863282 (-24)));
    (S754_finite false 9882596 (-21),
      (S754_finite false 13426222 (-50), S754_finite true 8388608 (-23)));
    (S754_finite false 11529695 (-21),
      (S754_finite false 11863281 (-24), S754_finite true 11863285 (-24))) ].

Definition trig_lookup (a : float) : option (float * float) :=
  option_map snd (find (fun e => float_eqb a (fst e)) trig_table).

Definition cos_tab (a : float) : float :=
  match trig_lookup a with Some cs => fst cs | None => S754_nan end.
Definition sin_tab (a : float) : float :=
  match trig_lookup a with Some cs => snd cs | None => S754_nan end.

(** A generator that replays a tape of draws; once the tape is exhausted a
    real draw returns the lower bound.  Integer draws return the lower bound. *)
Module Tape.
Definition Gen := list float.
Definition uniform_real (a b : float) (g : Gen) : float * Gen :=
    match g with
    | [] => (a, [])
    | v :: g' => (v, g')
    end.
Definition uniform_int (a b : Z) (g : Gen) : Z * Gen := (a, g).
End Tape.

(** Two candidates on opposite sides of the zone centre, half way out. *)
Definition demo_tape : Tape.Gen :=
  [ zero; lit 1 2; zero;
    S754_finite false 13176795 (-22); lit 1 2; zero ].

Definition demo_zone : LayoutManager.LayoutZone :=
  LayoutManager.mkLayoutZone (mkvec3 zero zero zero) (of_int 8) "treasure" [] 3 (of_int 2).

(** The objects [PlaceObjectsInZone] appends for [demo_zone] on [demo_tape],
    over the flat terrain. *)
Definition demo_objects : list LayoutManager.LayoutObject :=
  fst (LayoutManager.PlaceObjectsInZone flat_noise cos_tab sin_tab Tape.Gen
         Tape.uniform_real Tape.uniform_int (Some app_terrain) demo_zone [] demo_tape).

(** ** Notions used to state the properties *)

(** The order of [SFcompare] is the lexicographic order of a key. *)
Definition key (a : float) : Z * Z * Z :=
  match a with
  | S754_zero _ => (0, 0, 0)
  | S754_infinity s => if s then (-2, 0, 0) else (2, 0, 0)
  | S754_nan => (3, 0, 0)
  | S754_finite s m e => if s then (-1, - e, Zneg m) else (1, e, Zpos m)
  end.

Definition key_lt (a b : Z * Z * Z) : Prop :=
  let '(a1, a2, a3) := a in
  let '(b1, b2, b3) := b in
  a1 < b1 \/ (a1 = b1 /\ (a2 < b2 \/ (a2 = b2 /\ a3 < b3))).

(** The vertex of a chunk at grid point [(x, z)], as the index list addresses
    it: element [z * chunkSize + x] of the vertex vector. *)
Definition vertex_of (t : TerrainGenerator) (chunk : TerrainChunk) (x z : Z) : TerrainVertex :=
  nth (Z.to_nat (z * m_chunkSize t + x)) (vertices chunk) default_vertex.

(** Every index of a chunk addresses one of its vertices. *)
Definition chunk_ok (c : TerrainChunk) : Prop :=
  Forall (fun i => 0 <= i < Z.of_nat (length (vertices c))) (indices c).

(** The height that pass [i] of the loop of [GetAreaHeightVariation] reads. *)
Definition sample_height (simplex : vec2 -> float) (cosf sinf : float -> float)
    (t : TerrainGenerator) (center : vec3) (checkRadius : float) (i : Z) : float :=
  GetHeightAt simplex t
    (fadd (vx center) (fmul checkRadius (cosf (sample_angle i 8))))
    (fadd (vz center) (fmul checkRadius (sinf (sample_angle i 8)))).

(** All ordered pairs of two different elements of a list. *)
Fixpoint ordered_pairs {A : Type} (l : list A) : list (A * A) :=
  match l with
  | [] => []
  | a :: r => map (pair a) r ++ map (fun b => (b, a)) r ++ ordered_pairs r
  end.

(** Two circular zones are apart when the distance of their centres exceeds
    the sum of their radii. *)
Definition zones_apart (ab : LayoutManager.LayoutZone * LayoutManager.LayoutZone) : bool :=
  fgt (LayoutManager.distance (LayoutManager.center (fst ab)) (LayoutManager.center (snd ab)))
      (fadd (LayoutManager.radius (fst ab)) (LayoutManager.radius (snd ab))).

Definition origin : vec2 := mkvec2 zero zero.

(** A noise function that grows with [x]. *)
Definition ramp_noise (p : vec2) : float := x2 p.

(** The binary32 number [o * 2 ^ k], for an integer [o] of at most 24 binary
    digits: 8.0 is [dyadic 1 3], 7.0 is [dyadic 7 0]. *)
Definition dyadic (o k : Z) : float := binary_normalize prec emax o k false.

(** [(chunkSize - 1) * stepSize]: the offset of the last column (and of the
    last row) of a chunk from the origin of the chunk, as
    [GenerateChunkVertices] computes it. *)
Definition last_offset (t : TerrainGenerator) : float :=
  fmul (of_int (m_chunkSize t - 1)) (fdiv (m_chunkScale t) (of_int (m_chunkSize t - 1))).

(** The number of binary digits of a positive integer. *)
Definition digits (N : positive) : Z := Zpos (digits2_pos N).

(** The normal binary32 number of sign [s] and value [N * 2 ^ E], for an
    integer [N] of at most 24 binary digits: [N] is shifted to 24 digits. *)
Definition canon (s : bool) (N : positive) (E : Z) : float :=
  S754_finite s (Z.to_pos (Zpos N * 2 ^ (24 - digits N))) (E + digits N - 24).

(** The binary32 number of value [z * 2 ^ E], for an integer [z] of at most
    24 binary digits. *)
Definition signed_canon (z E : Z) : float :=
  match z with
  | Z0 => S754_zero false
  | Zpos N => canon false N E
  | Zneg N => canon true N E
  end.

(** The default geometry of the constructor: 64 x 64 vertices, chunk scale
    1.0. *)
Definition default_terrain : TerrainGenerator := TerrainGenerator_new 64 one.

(** Every position of the list passed the spacing test against the positions
    before it. *)
Definition spaced (d : float) (l : list vec3) : Prop :=
  forall pre q post, l = pre ++ q :: post ->
                     LayoutManager.CheckMinimumDistance q pre d = true.

(** The store before and after a call that only evicts: two accepted calls
    at (0,0) and (130,0), the flag reset, then a call at (134,0). *)
Definition evict_before : TerrainGenerator :=
  ResetTerrainUpdateFlag
    (run flat_noise small_terrain
         [OpGenerateTerrainAt origin; OpGenerateTerrainAt (mkvec2 (of_int 130) zero)]).

Definition evict_center : vec2 := mkvec2 (of_int 134) zero.

Definition evict_after : TerrainGenerator :=
  GenerateTerrainAt flat_noise evict_before evict_center.

Definition default_object : LayoutManager.LayoutObject :=
  LayoutManager.mkLayoutObject (vec3_splat zero) (vec3_splat zero) (vec3_splat zero) "" "".

(** A fresh 2 x 2 generator after its first call, at (0,0). *)
Definition first_call_state : TerrainGenerator :=
  run flat_noise (TerrainGenerator_new 2 (of_int 8)) [OpGenerateTerrainAt origin].

(** ** Further notions *)

(** A number that is neither NaN nor an infinity. *)
Definition is_finite (a : float) : bool :=
  match a with
  | S754_zero _ | S754_finite _ _ _ => true
  | _ => false
  end.

(** The operations that change a generation parameter. *)
Definition is_setter (op : Op) : bool :=
  match op with
  | OpSetNoiseScale _ | OpSetHeightScale _ | OpSetOctaves _ => true
  | _ => false
  end.

(** The ground level of [GetHeightNoise]. *)
Definition groundLevel : float := fneg (lit 1 10).

(** A stored chunk as the store keeps it: generated, with
    [chunkSize * chunkSize] vertices, two triangles per grid cell, and not
    farther from the centre of the last accepted call than the eviction
    distance. *)
Definition stored_ok (t : TerrainGenerator) (c : TerrainChunk) : Prop :=
  isGenerated c = true /\
  length (vertices c) = (Z.to_nat (m_chunkSize t) * Z.to_nat (m_chunkSize t))%nat /\
  length (indices c) = (6 * (Z.to_nat (m_chunkSize t - 1) * Z.to_nat (m_chunkSize t - 1)))%nat /\
  is_distant t (m_lastCenterPos t) c = false.

(** Every vertex of the chunk lies on the height field of [t]. *)
Definition on_height_field (simplex : vec2 -> float) (t : TerrainGenerator)
    (c : TerrainChunk) : Prop :=
  Forall (fun v => vy (position v) =
                   GetHeightAt simplex t (vx (position v)) (vz (position v)))
         (vertices c).

(** What [PlaceObjectsInZone] guarantees of an object it places in [zone]. *)
Definition well_placed (terrainGenerator : option TerrainGenerator)
    (zone : LayoutManager.LayoutZone) (o : LayoutManager.LayoutObject) : Prop :=
  LayoutManager.IsWithinTerrainBounds (LayoutManager.position o) = true /\
  (terrainGenerator <> None ->
   flt (vy (LayoutManager.position o)) (lit 1 2) = false) /\
  LayoutManager.theme o = LayoutManager.zone_theme zone /\
  LayoutManager.scale o = vec3_splat one /\
  vx (LayoutManager.rotation o) = zero /\ vz (LayoutManager.rotation o) = zero /\
  (LayoutManager.type o = "chest"%string \/ LayoutManager.type o = "key"%string \/
   (LayoutManager.type o = "decoration"%string /\
    LayoutManager.zone_theme zone <> "treasure"%string)).

(** The grid coordinate that the scan of [GenerateTerrainAt] reads off the
    first vertex of the chunk created at coordinate [c], for
    [chunkSize = 16] and [chunkScale = 8.0]. *)
Definition origin_coord (c : Z) : Z :=
  to_int (fdiv (fadd (fmul (of_int c) (of_int 8))
                     (fmul (of_int 0) (fdiv (of_int 8) (of_int (16 - 1)))))
               (of_int 8)).

(** What [FindNearbyFlatPosition] guarantees of the position it returns: it
    lies on the terrain surface, and the height variation around it is not
    larger than the variation around the centre of the search. *)
Definition good_spot (simplex : vec2 -> float) (cosf sinf : float -> float)
    (center : vec3) (t : TerrainGenerator) (p : vec3) : Prop :=
  vy p = GetHeightAt simplex t (vx p) (vz p) /\
  flt (GetAreaHeightVariation simplex cosf sinf center (Some t) (lit 3 2))
      (GetAreaHeightVariation simplex cosf sinf p (Some t) (lit 3 2)) = false.

(** The invariant of the search: [minVariation] is the variation around
    [bestPosition], which is a good spot. *)
Definition search_inv (simplex : vec2 -> float) (cosf sinf : float -> float)
    (center : vec3) (t : TerrainGenerator) (st : vec3 * float) : Prop :=
  snd st = GetAreaHeightVariation simplex cosf sinf (fst st) (Some t) (lit 3 2) /\
  good_spot simplex cosf sinf center t (fst st).

(** * Properties *)

(** ** Facts about binary32 comparison *)

Section FloatFacts.

Lemma SFcompare_antisym (a b : float) (c : comparison) :
    SFcompare a b = Some c -> SFcompare b a = Some (CompOpp c).
Proof.
    destruct a as [sa|sa| |sa ma ea], b as [sb|sb| |sb mb eb]; simpl;
      try discriminate; intros H; injection H as <-; f_equal.
    all: try (destruct sa; reflexivity).
    all: try (destruct sb; reflexivity).
    all: try (destruct sa, sb; reflexivity).
    rewrite (Z.compare_antisym ea eb).
    change (PosDef.Pos.compare_cont Eq mb ma) with (Pos.compare_cont Eq mb ma).
    replace (Pos.compare_cont Eq mb ma) with (CompOpp (Pos.compare_cont Eq ma mb))
      by apply Pos.compare_cont_antisym.
    destruct sa, sb; simpl; try reflexivity;
      destruct (ea ?= eb); simpl; try reflexivity;
      destruct (Pos.compare_cont Eq ma mb); reflexivity.
Qed.

Lemma SFcompare_nan (a b : float) :
    SFcompare a b = None <-> is_nan a = true \/ is_nan b = true.
Proof.
    destruct a as [sa|sa| |sa ma ea], b as [sb|sb| |sb mb eb]; simpl; split;
      intros H; try discriminate; try tauto;
      solve [ destruct H; discriminate | destruct sa; discriminate | destruct sb; discriminate
            | destruct sa, sb; discriminate ].
Qed.

Lemma flt_not_nan (a b : float) :
    flt a b = true -> is_nan a = false /\ is_nan b = false.
Proof.
    unfold flt, SFltb. destruct a, b; simpl; try discriminate; auto.
Qed.

Lemma fle_not_nan (a b : float) :
    fle a b = true -> is_nan a = false /\ is_nan b = false.
Proof.
    unfold fle, SFleb. destruct a, b; simpl; try discriminate; auto.
Qed.

  (** Among numbers, [not (a < b)] is [b <= a]. *)
Lemma flt_false_fle (a b : float) :
    flt a b = false -> is_nan a = false -> is_nan b = false -> fle b a = true.
Proof.
    unfold flt, fle, SFltb, SFleb. intros H Ha Hb.
    destruct (SFcompare a b) as [c|] eqn:E.
    - rewrite (SFcompare_antisym _ _ _ E). destruct c; simpl; congruence.
    - apply SFcompare_nan in E. destruct E; congruence.
Qed.

Lemma fle_flt_false (a b : float) : fle b a = true -> flt a b = false.
Proof.
    unfold flt, fle, SFltb, SFleb. intros H.
    destruct (SFcompare b a) as [c|] eqn:E; try discriminate.
    rewrite (SFcompare_antisym _ _ _ E). destruct c; simpl; congruence.
Qed.

Lemma SFcompare_key (a b : float) :
    is_nan a = false -> is_nan b = false ->
    match SFcompare a b with
    | Some Lt => key_lt (key a) (key b)
    | Some Eq => key a = key b
    | Some Gt => key_lt (key b) (key a)
    | None => False
    end.
Proof.
    destruct a as [sa|sa| |sa ma ea], b as [sb|sb| |sb mb eb]; simpl; try discriminate;
      intros _ _.
    all: try (destruct sa; simpl; auto; lia).
    all: try (destruct sb; simpl; auto; lia).
    all: try (destruct sa, sb; simpl; auto; lia).
    change (PosDef.Pos.compare_cont Eq ma mb) with (Pos.compare ma mb).
    destruct sa, sb; simpl; try lia;
      destruct (Z.compare_spec ea eb); try lia;
      destruct (Pos.compare_spec ma mb); subst; simpl; auto; lia.
Qed.

Lemma flt_key (a b : float) : flt a b = true -> key_lt (key a) (key b).
Proof.
    intros H. destruct (flt_not_nan _ _ H) as [Ha Hb].
    pose proof (SFcompare_key a b Ha Hb) as K.
    unfold flt, SFltb in H. destruct (SFcompare a b) as [[ | | ]|]; try discriminate. exact K.
Qed.

Lemma fle_key (a b : float) :
    fle a b = true -> key_lt (key a) (key b) \/ key a = key b.
Proof.
    intros H. destruct (fle_not_nan _ _ H) as [Ha Hb].
    pose proof (SFcompare_key a b Ha Hb) as K.
    unfold fle, SFleb in H. destruct (SFcompare a b) as [[ | | ]|]; try discriminate; auto.
Qed.

Lemma key_fle (a b : float) :
    is_nan a = false -> is_nan b = false ->
    key_lt (key a) (key b) \/ key a = key b -> fle a b = true.
Proof.
    intros Ha Hb H. pose proof (SFcompare_key a b Ha Hb) as K.
    unfold fle, SFleb. destruct (SFcompare a b) as [[ | | ]|]; try reflexivity; try contradiction.
    exfalso. destruct (key a) as [[a1 a2] a3], (key b) as [[b1 b2] b3].
    unfold key_lt in *. destruct H as [H|H]; [lia|]. injection H as -> -> ->. lia.
Qed.

  (** [a <= b] and [not (c < b)] give [a <= c], for a number [c]. *)
Lemma fle_trans_not_lt (a b c : float) :
    fle a b = true -> flt c b = false -> is_nan c = false -> fle a c = true.
Proof.
    intros Hab Hcb Hc. destruct (fle_not_nan _ _ Hab) as [Ha Hb].
    pose proof (flt_false_fle _ _ Hcb Hc Hb) as Hbc.
    apply key_fle; auto.
    apply fle_key in Hab. apply fle_key in Hbc.
    destruct (key a) as [[a1 a2] a3], (key b) as [[b1 b2] b3], (key c) as [[c1 c2] c3].
    unfold key_lt in *.
    destruct Hab as [Hab|Hab], Hbc as [Hbc|Hbc];
      try (injection Hab as -> -> ->); try (injection Hbc as -> -> ->); auto.
    left. lia.
Qed.

Lemma fle_flt_trans (a b c : float) :
    fle a b = true -> flt b c = true -> fle a c = true.
Proof.
    intros Hab Hbc. destruct (fle_not_nan _ _ Hab) as [Ha Hb].
    destruct (flt_not_nan _ _ Hbc) as [_ Hc].
    apply key_fle; auto.
    apply fle_key in Hab. apply flt_key in Hbc.
    destruct (key a) as [[a1 a2] a3], (key b) as [[b1 b2] b3], (key c) as [[c1 c2] c3].
    unfold key_lt in *.
    destruct Hab as [Hab|Hab]; try (injection Hab as -> -> ->); auto.
    left. lia.
Qed.

  (** [c < a <= b] excludes [b <= c]. *)
Lemma flt_fle_not_fle (a b c : float) :
    flt c a = true -> fle a b = true -> fle b c = false.
Proof.
    intros Hca Hab. destruct (fle b c) eqn:Hbc; [exfalso|reflexivity].
    apply flt_key in Hca. apply fle_key in Hab. apply fle_key in Hbc.
    destruct (key a) as [[a1 a2] a3], (key b) as [[b1 b2] b3], (key c) as [[c1 c2] c3].
    unfold key_lt in *.
    destruct Hab as [Hab|Hab], Hbc as [Hbc|Hbc];
      try (injection Hab as -> -> ->); try (injection Hbc as -> -> ->); lia.
Qed.

Lemma fmax_not_nan (m d : float) : is_nan m = false -> is_nan (fmax m d) = false.
Proof.
    intros Hm. unfold fmax. destruct (flt m d) eqn:E; auto.
    apply flt_not_nan in E. tauto.
Qed.

Lemma float_eqb_eq (a b : float) : float_eqb a b = true -> a = b.
Proof.
    destruct a as [sa|sa| |sa ma ea], b as [sb|sb| |sb mb eb]; simpl; try discriminate; auto.
    - intros H. apply Bool.eqb_prop in H. congruence.
    - intros H. apply Bool.eqb_prop in H. congruence.
    - intros H. apply andb_prop in H. destruct H as [H He].
      apply andb_prop in H. destruct H as [Hs Hm].
      apply Bool.eqb_prop in Hs. apply Pos.eqb_eq in Hm. apply Z.eqb_eq in He. congruence.
Qed.

  (** A number minus itself is zero, or NaN. *)
Lemma fsub_diag (c : float) : fabs (fsub c c) = zero \/ fabs (fsub c c) = S754_nan.
Proof.
    destruct c as [s|s| |s m e]; simpl.
    - left. destruct s; reflexivity.
    - right. destruct s; reflexivity.
    - right. reflexivity.
    - left. unfold fsub, SFsub. rewrite Z.sub_diag. reflexivity.
Qed.

End FloatFacts.

(** ** Binary32 operations that need no rounding *)

Section ExactArithmetic.

Lemma digits_pos (N : positive) : 0 < digits N.
Proof. unfold digits. lia. Qed.

Lemma digits_bounds (N : positive) : 2 ^ (digits N - 1) <= Zpos N < 2 ^ digits N.
Proof.
  unfold digits. induction N as [p IH|p IH|]; cbn [digits2_pos].
  - rewrite Pos2Z.inj_succ.
    replace (Z.succ (Zpos (digits2_pos p)) - 1) with (Z.succ (Zpos (digits2_pos p) - 1))
      by lia.
    rewrite !Z.pow_succ_r by lia. lia.
  - rewrite Pos2Z.inj_succ.
    replace (Z.succ (Zpos (digits2_pos p)) - 1) with (Z.succ (Zpos (digits2_pos p) - 1))
      by lia.
    rewrite !Z.pow_succ_r by lia. lia.
  - simpl. lia.
Qed.

Lemma digits_unique (N : positive) (d : Z) :
  2 ^ (d - 1) <= Zpos N < 2 ^ d -> digits N = d.
Proof.
  intros H. pose proof (digits_bounds N) as B. pose proof (digits_pos N) as P.
  destruct (Z.lt_trichotomy (digits N) d) as [L|[E|G]]; [|exact E|].
  - assert (2 ^ digits N <= 2 ^ (d - 1)) by (apply Z.pow_le_mono_r; lia). lia.
  - assert (0 <= d).
    { destruct (Z.le_gt_cases 0 d); auto. rewrite (Z.pow_neg_r 2 d) in H by lia. lia. }
    assert (2 ^ d <= 2 ^ (digits N - 1)) by (apply Z.pow_le_mono_r; lia). lia.
Qed.

Lemma shifted_pos (N : positive) (t : Z) : 0 <= t -> 0 < Zpos N * 2 ^ t.
Proof. intros. apply Z.mul_pos_pos; [lia|]. apply Z.pow_pos_nonneg; lia. Qed.

Lemma digits_shift (N : positive) (t : Z) :
  0 <= t -> digits (Z.to_pos (Zpos N * 2 ^ t)) = digits N + t.
Proof.
  intros Ht. apply digits_unique. rewrite Z2Pos.id by now apply shifted_pos.
  pose proof (digits_bounds N) as B. pose proof (digits_pos N) as P.
  replace (digits N + t - 1) with ((digits N - 1) + t) by lia.
  rewrite !Z.pow_add_r by lia.
  assert (0 < 2 ^ t) by (apply Z.pow_pos_nonneg; lia). nia.
Qed.

Lemma digits_le (N : positive) (d : Z) : Zpos N < 2 ^ d -> digits N <= d.
Proof.
  intros H. pose proof (digits_bounds N) as B.
  destruct (Z.le_gt_cases (digits N) d) as [L|G]; auto.
  assert (0 <= d).
  { destruct (Z.le_gt_cases 0 d); auto. rewrite (Z.pow_neg_r 2 d) in H by lia. lia. }
  assert (2 ^ d <= 2 ^ (digits N - 1)) by (apply Z.pow_le_mono_r; lia). lia.
Qed.

Lemma digits_mul (A B : positive) : digits A + digits B - 1 <= digits (A * B).
Proof.
  pose proof (digits_bounds A) as HA. pose proof (digits_bounds B) as HB.
  pose proof (digits_bounds (A * B)) as HAB.
  pose proof (digits_pos A). pose proof (digits_pos B).
  destruct (Z.le_gt_cases (digits A + digits B - 1) (digits (A * B))) as [L|G]; auto.
  assert (2 ^ digits (A * B) <= 2 ^ ((digits A - 1) + (digits B - 1)))
    by (apply Z.pow_le_mono_r; lia).
  rewrite Z.pow_add_r in H1 by lia. rewrite Pos2Z.inj_mul in HAB. nia.
Qed.

Lemma iter_pos_nat {A : Type} (f : A -> A) (n : positive) :
  forall x, iter_pos f n x = Nat.iter (Pos.to_nat n) f x.
Proof.
  induction n as [n IH|n IH|]; intros x; cbn [iter_pos].
  - rewrite !IH, Pos2Nat.inj_xI. 
    replace (S (2 * Pos.to_nat n)) with (Pos.to_nat n + (Pos.to_nat n + 1))%nat by lia.
    rewrite !Nat.iter_add. reflexivity.
  - rewrite !IH, Pos2Nat.inj_xO.
    replace (2 * Pos.to_nat n)%nat with (Pos.to_nat n + Pos.to_nat n)%nat by lia.
    rewrite Nat.iter_add. reflexivity.
  - reflexivity.
Qed.

Lemma shr_1_exact (k : nat) :
  forall P : positive,
  Nat.iter k shr_1 (Build_shr_record (Zpos (Z.to_pos (Zpos P * 2 ^ Z.of_nat k))) false false)
  = Build_shr_record (Zpos P) false false.
Proof.
  induction k as [|k IH]; intros P.
  - cbn [Nat.iter nat_rect]. change (2 ^ Z.of_nat 0) with 1. rewrite Z.mul_1_r. reflexivity.
  - replace (Zpos P * 2 ^ Z.of_nat (S k)) with (Zpos (xO P) * 2 ^ Z.of_nat k).
    + rewrite Nat.iter_succ, IH. reflexivity.
    + rewrite Nat2Z.inj_succ, Z.pow_succ_r by lia. lia.
Qed.

Lemma shr_exact (P : positive) (e n : Z) :
  0 <= n ->
  shr (Build_shr_record (Zpos (Z.to_pos (Zpos P * 2 ^ n))) false false) e n
  = (Build_shr_record (Zpos P) false false, e + n).
Proof.
  intros Hn. destruct n as [|q|q]; [| |lia].
  - cbn [shr]. change (2 ^ 0) with 1. rewrite Z.mul_1_r, Z.add_0_r. reflexivity.
  - cbn [shr]. rewrite iter_pos_nat.
    rewrite <- (positive_nat_Z q) at 1. rewrite shr_1_exact. reflexivity.
Qed.

Lemma shl_value (m : positive) (q : positive) :
  Zpos (Pos.iter xO m q) = Zpos m * 2 ^ Zpos q.
Proof.
  rewrite Pos2Nat.inj_iter. rewrite <- (positive_nat_Z q).
  induction (Pos.to_nat q) as [|k IH].
  - simpl. lia.
  - rewrite Nat2Z.inj_succ, Z.pow_succ_r by lia. cbn [nat_rect].
    rewrite Pos2Z.inj_xO, IH. lia.
Qed.

Lemma fexp_normal (x : Z) : -125 <= x -> fexp prec emax x = x - 24.
Proof. intros H. unfold fexp, emin, prec, emax. lia. Qed.

Lemma to_pos_canon (N : positive) :
  digits N <= 24 -> digits (Z.to_pos (Zpos N * 2 ^ (24 - digits N))) = 24.
Proof. intros H. rewrite digits_shift by lia. lia. Qed.

  (** Rounding a number that needs no rounding: [N * 2 ^ t] at exponent [e],
      once it has at least 24 digits. *)
Lemma aux_exact (s : bool) (N : positive) (t e : Z) :
  0 <= t -> digits N <= 24 -> 24 <= digits N + t ->
  -149 <= e + t + digits N - 24 <= 104 ->
  binary_round_aux prec emax s (Zpos (Z.to_pos (Zpos N * 2 ^ t))) e loc_Exact
  = canon s N (e + t).
Proof.
  intros Ht Hd Hd' He.
  set (P' := Z.to_pos (Zpos N * 2 ^ (24 - digits N))).
  set (n := digits N + t - 24).
  assert (HP : Z.to_pos (Zpos N * 2 ^ t) = Z.to_pos (Zpos P' * 2 ^ n)).
  { f_equal. unfold P'. rewrite Z2Pos.id by (apply shifted_pos; lia).
    rewrite <- Z.mul_assoc, <- Z.pow_add_r by lia. f_equal. f_equal. lia. }
  assert (HdP' : digits P' = 24) by now apply to_pos_canon.
  assert (S1 : shr_fexp prec emax (Zpos (Z.to_pos (Zpos P' * 2 ^ n))) e loc_Exact
               = (Build_shr_record (Zpos P') false false, e + n)).
  { unfold shr_fexp. cbn [shr_record_of_loc Zdigits2].
    change (Zpos (digits2_pos (Z.to_pos (Zpos P' * 2 ^ n))))
      with (digits (Z.to_pos (Zpos P' * 2 ^ n))).
    rewrite digits_shift by lia. rewrite fexp_normal by lia.
    replace (digits P' + n + e - 24 - e) with n by lia.
    apply shr_exact. lia. }
  assert (S2 : shr_fexp prec emax (Zpos P') (e + n) loc_Exact
               = (Build_shr_record (Zpos P') false false, e + n)).
  { unfold shr_fexp. cbn [shr_record_of_loc Zdigits2].
    change (Zpos (digits2_pos P')) with (digits P').
    rewrite HdP', fexp_normal by lia.
    replace (24 + (e + n) - 24 - (e + n)) with 0 by lia. reflexivity. }
  unfold binary_round_aux. rewrite HP, S1.
  cbn [shr_m loc_of_shr_record round_nearest_even]. rewrite S2. cbn [shr_m].
  replace (e + n <=? emax - prec) with true
    by (symmetry; apply Z.leb_le; unfold emax, prec; lia).
  unfold canon. fold P'. f_equal. lia.
Qed.

  (** The same after the alignment step of [binary_round]. *)
Lemma round_exact (s : bool) (N : positive) (t e : Z) :
  0 <= t -> digits N <= 24 -> -149 <= e + t + digits N - 24 <= 104 ->
  binary_round prec emax s (Z.to_pos (Zpos N * 2 ^ t)) e = canon s N (e + t).
Proof.
  intros Ht Hd He. unfold binary_round.
  change (Zpos (digits2_pos (Z.to_pos (Zpos N * 2 ^ t))))
    with (digits (Z.to_pos (Zpos N * 2 ^ t))).
  rewrite digits_shift by lia. rewrite fexp_normal by lia.
  unfold shl_align.
  destruct (digits N + t + e - 24 - e) as [|q|q] eqn:E.
  - apply aux_exact; lia.
  - apply aux_exact; lia.
  - assert (Hq : Pos.iter xO (Z.to_pos (Zpos N * 2 ^ t)) q
                 = Z.to_pos (Zpos N * 2 ^ (t + Zpos q))).
    { apply Pos2Z.inj. rewrite shl_value, !Z2Pos.id by (apply shifted_pos; lia).
      rewrite Z.pow_add_r by lia. lia. }
    rewrite Hq.
    replace (e + t) with ((digits N + t + e - 24) + (t + Zpos q)) by lia.
    apply aux_exact; lia.
Qed.

  (** [binary_normalize] gives the number itself when it has at most 24
      digits, however it is written. *)
Lemma bn_exact (z t E : Z) :
  0 <= t -> Z.abs z < 2 ^ 24 -> -126 <= E <= 104 ->
  binary_normalize prec emax (z * 2 ^ t) (E - t) false = signed_canon z E.
Proof.
  intros Ht Hz HE. destruct z as [|N|N].
  - reflexivity.
  - assert (Hd : digits N <= 24) by (apply digits_le; lia).
    pose proof (digits_pos N).
    rewrite <- (Z2Pos.id (Zpos N * 2 ^ t)) by (apply shifted_pos; lia).
    cbn [binary_normalize signed_canon]. rewrite round_exact by lia. f_equal. lia.
  - assert (Hd : digits N <= 24) by (apply digits_le; lia).
    pose proof (digits_pos N).
    replace (Zneg N * 2 ^ t) with (Zneg (Z.to_pos (Zpos N * 2 ^ t))).
    + cbn [binary_normalize signed_canon]. rewrite round_exact by lia. f_equal. lia.
    + rewrite <- Pos2Z.opp_pos, Z2Pos.id by (apply shifted_pos; lia). lia.
Qed.

Lemma of_int_exact (c : Z) : Z.abs c < 2 ^ 24 -> of_int c = signed_canon c 0.
Proof.
  intros H. pose proof (bn_exact c 0 0) as B.
  change (2 ^ 0) with 1 in B. rewrite Z.mul_1_r in B. apply B; lia.
Qed.

Lemma dyadic_exact (o k : Z) :
  Z.abs o < 2 ^ 24 -> -126 <= k <= 104 -> binary_normalize prec emax o k false = signed_canon o k.
Proof.
  intros H Hk. pose proof (bn_exact o 0 k) as B.
  change (2 ^ 0) with 1 in B. rewrite Z.mul_1_r, Z.sub_0_r in B. apply B; lia.
Qed.

Lemma canon_mantissa (N : positive) :
  digits N <= 24 ->
  Zpos (Z.to_pos (Zpos N * 2 ^ (24 - digits N))) = Zpos N * 2 ^ (24 - digits N).
Proof. intros H. apply Z2Pos.id, shifted_pos. lia. Qed.

Lemma canon_mul (sa sb : bool) (A B : positive) (E1 E2 : Z) :
  Zpos (A * B) < 2 ^ 24 -> -126 <= E1 + E2 <= 104 ->
  fmul (canon sa A E1) (canon sb B E2) = canon (xorb sa sb) (A * B) (E1 + E2).
Proof.
  intros Hab HE.
  assert (HA : digits A <= 24) by (apply digits_le; rewrite Pos2Z.inj_mul in Hab; nia).
  assert (HB : digits B <= 24) by (apply digits_le; rewrite Pos2Z.inj_mul in Hab; nia).
  assert (HAB : digits (A * B) <= 24) by now apply digits_le.
  pose proof (digits_mul A B) as HM. pose proof (digits_pos (A * B)) as HP.
  unfold canon at 1 2. unfold fmul. cbn [SFmul].
  assert (Hm : (Z.to_pos (Zpos A * 2 ^ (24 - digits A)) *
                Z.to_pos (Zpos B * 2 ^ (24 - digits B)))%positive
               = Z.to_pos (Zpos (A * B) * 2 ^ (48 - digits A - digits B))).
  { apply Pos2Z.inj. rewrite Pos2Z.inj_mul, !canon_mantissa by assumption.
    rewrite Z2Pos.id by (apply shifted_pos; lia).
    replace (48 - digits A - digits B) with ((24 - digits A) + (24 - digits B)) by lia.
    rewrite Z.pow_add_r, Pos2Z.inj_mul by lia. ring. }
  rewrite Hm, aux_exact by lia. unfold canon. f_equal. lia.
Qed.

  (** A product that needs no rounding. *)
Lemma mul_exact (a b E1 E2 : Z) :
  0 < b -> Z.abs (a * b) < 2 ^ 24 -> -126 <= E1 + E2 <= 104 ->
  fmul (signed_canon a E1) (signed_canon b E2) = signed_canon (a * b) (E1 + E2).
Proof.
  intros Hb Hab HE. destruct b as [|B|B]; try lia.
  destruct a as [|A|A].
  - reflexivity.
  - cbn [signed_canon Z.mul]. rewrite canon_mul; [reflexivity| |lia]. cbn [Z.mul Z.abs] in Hab. lia.
  - cbn [signed_canon Z.mul]. rewrite canon_mul; [reflexivity| |lia]. cbn [Z.mul Z.abs] in Hab. lia.
Qed.

Lemma shl_align_value (m : positive) (e e' : Z) :
  e' <= e -> Zpos (fst (shl_align m e e')) = Zpos m * 2 ^ (e - e').
Proof.
  intros H. unfold shl_align. destruct (e' - e) as [|q|q] eqn:E; cbn [fst].
  - replace (e - e') with 0 by lia. change (2 ^ 0) with 1. lia.
  - lia.
  - rewrite shl_value. f_equal. f_equal. lia.
Qed.

Lemma canon_add (sa sb : bool) (A B : positive) (E : Z) :
  digits A <= 24 -> digits B <= 24 ->
  let ez := Z.min (E + digits A - 24) (E + digits B - 24) in
  fadd (canon sa A E) (canon sb B E) =
  binary_normalize prec emax
    ((cond_Zopp sa (Zpos A) + cond_Zopp sb (Zpos B)) * 2 ^ (E - ez)) ez false.
Proof.
  intros HA HB ez. unfold canon, fadd. cbn [SFadd]. fold ez.
  rewrite !shl_align_value by lia. rewrite !canon_mantissa by assumption.
  f_equal.
  replace (Zpos A * 2 ^ (24 - digits A) * 2 ^ (E + digits A - 24 - ez))
    with (Zpos A * 2 ^ (E - ez))
    by (rewrite <- Z.mul_assoc, <- Z.pow_add_r by lia; f_equal; f_equal; lia).
  replace (Zpos B * 2 ^ (24 - digits B) * 2 ^ (E + digits B - 24 - ez))
    with (Zpos B * 2 ^ (E - ez))
    by (rewrite <- Z.mul_assoc, <- Z.pow_add_r by lia; f_equal; f_equal; lia).
  destruct sa, sb; cbn [cond_Zopp]; ring.
Qed.

  (** A sum that needs no rounding. *)
Lemma add_exact (a b E : Z) :
  Z.abs a < 2 ^ 24 -> Z.abs b < 2 ^ 24 -> Z.abs (a + b) < 2 ^ 24 -> -126 <= E <= 104 ->
  fadd (signed_canon a E) (signed_canon b E) = signed_canon (a + b) E.
Proof.
  intros Ha Hb Hab HE.
  destruct a as [|A|A]; [destruct b; reflexivity| |];
    (destruct b as [|B|B]; [reflexivity| |]).
  all: cbn [signed_canon].
  all: assert (HA : digits A <= 24) by (apply digits_le; lia).
  all: assert (HB : digits B <= 24) by (apply digits_le; lia).
  all: rewrite canon_add by assumption; cbn [cond_Zopp].
  all: set (ez := Z.min (E + digits A - 24) (E + digits B - 24)).
  all: replace ez with (E - (E - ez)) at 2 by lia.
  all: rewrite <- ?Pos2Z.opp_pos.
  all: apply bn_exact; try lia.
Qed.

Lemma add_zero_r (z E : Z) (sg : bool) : fadd (signed_canon z E) (S754_zero sg) = signed_canon z E.
Proof. destruct z, sg; reflexivity. Qed.

Lemma mul_zero_finite (x step : float) (s : bool) (m : positive) (e : Z) :
  fmul x step = S754_finite s m e ->
  exists sg, fmul (of_int 0) step = S754_zero sg.
Proof.
  intros H. destruct step as [sg|sg| |sg ms es].
  - destruct x; discriminate.
  - destruct x; discriminate.
  - destruct x; discriminate.
  - exists (xorb false sg). reflexivity.
Qed.

  (** The origin of chunk [c], then a step of one chunk scale, is the origin
      of chunk [c + 1], for a chunk scale [o * 2 ^ k] and origins that are
      computed without rounding. *)
Lemma seam_arith (o k c : Z) :
  0 < o -> Z.abs c * o < 2 ^ 24 -> Z.abs (c + 1) * o < 2 ^ 24 -> -126 <= k <= 104 ->
  fadd (fmul (of_int c) (binary_normalize prec emax o k false))
       (binary_normalize prec emax o k false)
  = fmul (of_int (c + 1)) (binary_normalize prec emax o k false).
Proof.
  intros Ho Hc Hc1 Hk.
  assert (Ho' : Z.abs o < 2 ^ 24) by nia.
  rewrite !of_int_exact by nia. rewrite dyadic_exact by lia.
  rewrite !mul_exact by (rewrite ?Z.abs_mul; lia || nia).
  rewrite add_exact.
  - f_equal. ring.
  - rewrite Z.abs_mul. nia.
  - exact Ho'.
  - replace (c * o + o) with ((c + 1) * o) by ring. rewrite Z.abs_mul. nia.
  - lia.
Qed.

End ExactArithmetic.

(** ** Facts about loops and vectors *)

Section ListFacts.

Lemma length_zrange (lo n : Z) : length (zrange lo n) = Z.to_nat n.
Proof. unfold zrange. now rewrite length_map, length_seq. Qed.

Lemma In_zrange (lo n x : Z) : In x (zrange lo n) <-> lo <= x < lo + n.
Proof.
    unfold zrange. rewrite in_map_iff. split.
    - intros [k [<- Hk]]. apply in_seq in Hk. lia.
    - intros H. exists (Z.to_nat (x - lo)). split; [lia|]. apply in_seq. lia.
Qed.

Lemma nth_zrange (lo n : Z) (k : nat) (d : Z) :
    (k < Z.to_nat n)%nat -> nth k (zrange lo n) d = lo + Z.of_nat k.
Proof.
    intros H. unfold zrange.
    rewrite (nth_indep _ d (lo + Z.of_nat 0)) by now rewrite length_map, length_seq.
    rewrite (map_nth (fun k => lo + Z.of_nat k)). now rewrite seq_nth.
Qed.

Lemma length_update_at {A : Type} (i : nat) (f : A -> A) (l : list A) :
    length (update_at i f l) = length l.
Proof.
    revert i. induction l as [|a l IH]; intros [|i]; simpl; auto.
Qed.

Lemma map_update_at {A B : Type} (g : A -> B) (i : nat) (f : A -> A) (l : list A) :
    (forall a, g (f a) = g a) -> map g (update_at i f l) = map g l.
Proof.
    intros H. revert i. induction l as [|a l IH]; intros [|i]; simpl; auto.
    - now rewrite H.
    - now rewrite IH.
Qed.

  (** Rows of equal length, laid out one after the other. *)
Lemma length_flat_map_rows {A B : Type} (g : A -> list B) (k : nat) (rows : list A) :
    (forall r, length (g r) = k) -> length (flat_map g rows) = (length rows * k)%nat.
Proof.
    intros H. induction rows as [|r rows IH]; simpl; auto.
    now rewrite length_app, H, IH.
Qed.

Lemma nth_flat_map_rows {A B : Type} (g : A -> list B) (k : nat) (rows : list A)
      (j i : nat) (dr : A) (d : B) :
    (forall r, length (g r) = k) -> (j < length rows)%nat -> (i < k)%nat ->
    nth (j * k + i) (flat_map g rows) d = nth i (g (nth j rows dr)) d.
Proof.
    intros H. revert j. induction rows as [|r rows IH]; intros j Hj Hi; simpl in *; [lia|].
    destruct j as [|j]; simpl.
    - rewrite app_nth1; auto. now rewrite H.
    - rewrite app_nth2 by (rewrite H; lia). rewrite H.
      replace (k + j * k + i - k)%nat with (j * k + i)%nat by lia.
      apply IH; lia.
Qed.

End ListFacts.

(** ** Chunk geometry *)

Section ChunkFacts.

Variable simplex : vec2 -> float.

Lemma positions_accumulate_normals (idx : list Z) (vs : list TerrainVertex) :
    map position (accumulate_normals idx vs) = map position vs.
Proof.
    remember (length idx) as n eqn:Hn.
    assert (Hle : (length idx <= n)%nat) by lia. clear Hn.
    revert idx vs Hle. induction n as [|n IH]; intros idx vs Hle.
    - destruct idx; [reflexivity | simpl in Hle; lia].
    - destruct idx as [|i0 [|i1 [|i2 rest]]]; try reflexivity.
      simpl. rewrite IH by (simpl in Hle; lia).
      rewrite !map_update_at; auto.
Qed.

  (** Normals and colours leave the positions and the index list of a chunk
      as [GenerateChunkVertices] built them. *)
Lemma positions_CreateChunk (t : TerrainGenerator) (cx cz : Z) :
    map position (vertices (CreateChunk simplex t cx cz)) =
    flat_map (fun z => map (fun x => position (chunk_vertex simplex t cx cz x z))
                           (zrange 0 (m_chunkSize t)))
             (zrange 0 (m_chunkSize t)).
Proof.
    unfold CreateChunk, AssignBiomeColors, CalculateNormals, GenerateChunkVertices; simpl.
    rewrite !map_map. simpl.
    change (map (fun x => position x)) with (map position).
    rewrite positions_accumulate_normals, map_map. simpl.
    rewrite flat_map_concat_map, concat_map, map_map, <- flat_map_concat_map.
    apply flat_map_ext. intros z. now rewrite map_map.
Qed.

Lemma indices_CreateChunk (t : TerrainGenerator) (cx cz : Z) :
    indices (CreateChunk simplex t cx cz) =
    flat_map (fun z => flat_map (fun x => cell_indices t x z) (zrange 0 (m_chunkSize t - 1)))
             (zrange 0 (m_chunkSize t - 1)).
Proof. reflexivity. Qed.

Lemma isGenerated_CreateChunk (t : TerrainGenerator) (cx cz : Z) :
    isGenerated (CreateChunk simplex t cx cz) = true.
Proof. reflexivity. Qed.

Lemma length_CreateChunk (t : TerrainGenerator) (cx cz : Z) :
    length (vertices (CreateChunk simplex t cx cz)) =
    (Z.to_nat (m_chunkSize t) * Z.to_nat (m_chunkSize t))%nat.
Proof.
    rewrite <- (length_map position), positions_CreateChunk.
    rewrite (length_flat_map_rows _ (Z.to_nat (m_chunkSize t))).
    - now rewrite length_zrange.
    - intros r. now rewrite length_map, length_zrange.
Qed.

Lemma position_vertex_of (t : TerrainGenerator) (cx cz x z : Z) :
    0 <= x < m_chunkSize t -> 0 <= z < m_chunkSize t ->
    position (vertex_of t (CreateChunk simplex t cx cz) x z) =
    position (chunk_vertex simplex t cx cz x z).
Proof.
    intros Hx Hz. unfold vertex_of.
    rewrite <- (map_nth position), positions_CreateChunk.
    replace (Z.to_nat (z * m_chunkSize t + x))
      with (Z.to_nat z * Z.to_nat (m_chunkSize t) + Z.to_nat x)%nat by nia.
    rewrite (nth_flat_map_rows _ (Z.to_nat (m_chunkSize t)) _ _ _ 0).
    - rewrite nth_zrange by lia.
      rewrite (nth_indep _ _ (position (chunk_vertex simplex t cx cz 0 (0 + Z.of_nat (Z.to_nat z)))))
        by (rewrite length_map, length_zrange; lia).
      rewrite (map_nth (fun x => position (chunk_vertex simplex t cx cz x _))).
      rewrite nth_zrange by lia.
      now rewrite !Z.add_0_l, !Z2Nat.id by lia.
    - intros r. now rewrite length_map, length_zrange.
    - rewrite length_zrange. lia.
    - lia.
Qed.

Lemma cell_indices_bound (t : TerrainGenerator) (x z : Z) :
    0 <= x < m_chunkSize t - 1 -> 0 <= z < m_chunkSize t - 1 ->
    Forall (fun i => 0 <= i < m_chunkSize t * m_chunkSize t) (cell_indices t x z).
Proof.
    intros Hx Hz. unfold cell_indices, u32_add, to_u32.
    set (n := m_chunkSize t) in *.
    assert (H1 : 0 <= (z * n + x) mod 2 ^ 32 <= z * n + x).
    { split; [apply Z.mod_pos_bound; lia | apply Z.mod_le; nia]. }
    assert (H2 : 0 <= ((z + 1) * n + x) mod 2 ^ 32 <= (z + 1) * n + x).
    { split; [apply Z.mod_pos_bound; lia | apply Z.mod_le; nia]. }
    assert (H3 : 0 <= ((z * n + x) mod 2 ^ 32 + 1) mod 2 ^ 32 <= (z * n + x) mod 2 ^ 32 + 1).
    { split; [apply Z.mod_pos_bound; lia | apply Z.mod_le; lia]. }
    assert (H4 : 0 <= (((z + 1) * n + x) mod 2 ^ 32 + 1) mod 2 ^ 32
                 <= ((z + 1) * n + x) mod 2 ^ 32 + 1).
    { split; [apply Z.mod_pos_bound; lia | apply Z.mod_le; lia]. }
    repeat constructor; nia.
Qed.

Lemma chunk_ok_CreateChunk (t : TerrainGenerator) (cx cz : Z) :
    chunk_ok (CreateChunk simplex t cx cz).
Proof.
    unfold chunk_ok. rewrite length_CreateChunk, indices_CreateChunk.
    apply Forall_forall. intros i Hi.
    apply in_flat_map in Hi. destruct Hi as [z [Hz Hi]].
    apply in_flat_map in Hi. destruct Hi as [x [Hx Hi]].
    apply In_zrange in Hz. apply In_zrange in Hx.
    pose proof (cell_indices_bound t x z ltac:(lia) ltac:(lia)) as B.
    rewrite Forall_forall in B. specialize (B i Hi).
    rewrite Nat2Z.inj_mul, Z2Nat.id by lia. exact B.
Qed.

End ChunkFacts.

(** ** The chunk store *)

Section StoreFacts.

Variable simplex : vec2 -> float.

  (** The window loops only append to the chunk vector, and raise the local
      flag exactly when they append. *)
Lemma window_step_spec (t : TerrainGenerator) (chunks : list TerrainChunk) (b : bool)
      (xz : Z * Z) :
    exists created,
      fst (window_step simplex t (chunks, b) xz) = chunks ++ created /\
      snd (window_step simplex t (chunks, b) xz) = (b || negb (Nat.eqb (length created) 0)) /\
      Forall (fun c => exists x z, c = CreateChunk simplex t x z) created.
Proof.
    destruct xz as [x z]. unfold window_step.
    destruct (existsb (chunk_at t x z) chunks).
    - exists []. simpl. rewrite app_nil_r, orb_false_r. auto.
    - exists [CreateChunk simplex t x z]. simpl. rewrite orb_true_r.
      repeat split; auto. constructor; eauto.
Qed.

Lemma window_fold_spec (t : TerrainGenerator) (w : list (Z * Z)) :
    forall (chunks : list TerrainChunk) (b : bool),
    exists created,
      fst (fold_left (window_step simplex t) w (chunks, b)) = chunks ++ created /\
      snd (fold_left (window_step simplex t) w (chunks, b))
        = (b || negb (Nat.eqb (length created) 0)) /\
      Forall (fun c => exists x z, c = CreateChunk simplex t x z) created.
Proof.
    induction w as [|xz w IH]; intros chunks b; cbn [fold_left].
    - exists []. simpl. rewrite app_nil_r, orb_false_r. auto.
    - destruct (window_step_spec t chunks b xz) as [c1 [H1 [H2 H3]]].
      destruct (window_step simplex t (chunks, b) xz) as [chunks1 b1] eqn:E.
      simpl in H1, H2. subst chunks1 b1.
      destruct (IH (chunks ++ c1) (b || negb (Nat.eqb (length c1) 0))) as [c2 [G1 [G2 G3]]].
      exists (c1 ++ c2). rewrite G1, G2, app_assoc, length_app. repeat split.
      + destruct c1, c2; simpl; rewrite ?orb_false_r, ?orb_true_r; reflexivity.
      + apply Forall_app; auto.
Qed.

Lemma window_loops_spec (t : TerrainGenerator) (centerPos : vec2) :
    exists created,
      fst (window_loops simplex t centerPos) = m_chunks t ++ created /\
      snd (window_loops simplex t centerPos) = negb (Nat.eqb (length created) 0) /\
      Forall (fun c => exists x z, c = CreateChunk simplex t x z) created.
Proof.
    unfold window_loops. destruct (centerChunk t centerPos) as [cx cz].
    destruct (window_fold_spec t (window cx cz 3) (m_chunks t) false) as [c [H1 [H2 H3]]].
    exists c. auto.
Qed.

  (** The local flag [newChunksGenerated] is raised exactly when the call
      created a chunk. *)
Lemma newChunksGenerated_iff (t : TerrainGenerator) (centerPos : vec2) :
    snd (window_loops simplex t centerPos) = true <->
    (length (m_chunks t) < length (fst (window_loops simplex t centerPos)))%nat.
Proof.
    destruct (window_loops_spec t centerPos) as [c [H1 [H2 _]]].
    rewrite H1, H2, length_app. destruct c; simpl; split; intros; try lia; try discriminate; auto.
Qed.

Lemma flag_GenerateTerrainAt (t : TerrainGenerator) (centerPos : vec2) :
    HasTerrainUpdated (GenerateTerrainAt simplex t centerPos) =
    if moved_too_little t centerPos then HasTerrainUpdated t
    else (snd (window_loops simplex t centerPos) || HasTerrainUpdated t).
Proof.
    unfold GenerateTerrainAt, HasTerrainUpdated.
    destruct (moved_too_little t centerPos); auto.
    destruct (window_loops simplex t centerPos) as [chunks b]. simpl. destruct b; auto.
Qed.

Lemma flag_monotone (t : TerrainGenerator) (op : Op) :
    is_reset op = false -> HasTerrainUpdated t = true ->
    HasTerrainUpdated (step simplex t op) = true.
Proof.
    intros Hop Ht. destruct op; simpl in *; try discriminate; auto.
    - rewrite flag_GenerateTerrainAt, Ht, orb_true_r. now destruct (moved_too_little _ _).
    - unfold UpdateLOD. rewrite flag_GenerateTerrainAt, Ht, orb_true_r.
      now destruct (moved_too_little _ _).
Qed.

Lemma flag_stays (ops : list Op) :
    forall t, forallb (fun op => negb (is_reset op)) ops = true ->
    HasTerrainUpdated t = true -> HasTerrainUpdated (run simplex t ops) = true.
Proof.
    induction ops as [|op ops IH]; intros t Hops Ht; simpl in *; auto.
    apply andb_prop in Hops. destruct Hops as [Hop Hops].
    apply IH; auto. apply flag_monotone; auto. now destruct (is_reset op).
Qed.

  (** What the code does keep of the flag: once an accepted
      [GenerateTerrainAt] call has created a chunk, [HasTerrainUpdated] is
      true after the call and after every further sequence of operations that
      does not reset the flag; [ResetTerrainUpdateFlag] then makes it false.
      A call that creates no chunk leaves the flag as it was, whatever it
      evicts. *)
Lemma flag_true_from_creation_until_reset
      (t : TerrainGenerator) (centerPos : vec2) (ops : list Op) :
    moved_too_little t centerPos = false ->
    (length (m_chunks t) < length (fst (window_loops simplex t centerPos)))%nat ->
    forallb (fun op => negb (is_reset op)) ops = true ->
    let t' := run simplex (GenerateTerrainAt simplex t centerPos) ops in
    HasTerrainUpdated t' = true /\
    HasTerrainUpdated (ResetTerrainUpdateFlag t') = false /\
    (forall c, snd (window_loops simplex t' c) = false ->
               HasTerrainUpdated (GenerateTerrainAt simplex (ResetTerrainUpdateFlag t') c) = false).
Proof.
    intros Hacc Hnew Hops t'.
    assert (Ht' : HasTerrainUpdated t' = true).
    { apply flag_stays; auto.
      rewrite flag_GenerateTerrainAt, Hacc.
      apply newChunksGenerated_iff in Hnew. now rewrite Hnew. }
    clearbody t'. split; [exact Ht'|]. split; [reflexivity|].
    intros c Hc. rewrite flag_GenerateTerrainAt.
    replace (window_loops simplex (ResetTerrainUpdateFlag t') c)
      with (window_loops simplex t' c) by reflexivity.
    rewrite Hc. unfold HasTerrainUpdated, ResetTerrainUpdateFlag; simpl.
    destruct (moved_too_little _ c); reflexivity.
Qed.

  (** *** The invariant of the store: every index of a chunk addresses one of
      its vertices *)

Lemma store_ok_GenerateTerrainAt (t : TerrainGenerator) (centerPos : vec2) :
    Forall chunk_ok (m_chunks t) ->
    Forall chunk_ok (m_chunks (GenerateTerrainAt simplex t centerPos)).
Proof.
    intros H. unfold GenerateTerrainAt. destruct (moved_too_little t centerPos); auto.
    destruct (window_loops_spec t centerPos) as [c [H1 [_ H3]]].
    destruct (window_loops simplex t centerPos) as [chunks b]. simpl in *. subst chunks.
    unfold CleanupDistantChunks. apply Forall_forall. intros ch Hch.
    apply filter_In in Hch. destruct Hch as [Hch _].
    apply in_app_or in Hch. destruct Hch as [Hch|Hch].
    - rewrite Forall_forall in H. auto.
    - rewrite Forall_forall in H3. destruct (H3 ch Hch) as [x [z ->]].
      apply chunk_ok_CreateChunk.
Qed.

Lemma store_ok_step (t : TerrainGenerator) (op : Op) :
    Forall chunk_ok (m_chunks t) -> Forall chunk_ok (m_chunks (step simplex t op)).
Proof.
    intros H. destruct op; simpl; auto; apply store_ok_GenerateTerrainAt; auto.
Qed.

Lemma store_ok_reachable (t : TerrainGenerator) :
    reachable simplex t -> Forall chunk_ok (m_chunks t).
Proof.
    intros [n [s [ops ->]]]. unfold run.
    assert (G : forall t0, Forall chunk_ok (m_chunks t0) ->
                           Forall chunk_ok (m_chunks (fold_left (step simplex) ops t0))).
    { induction ops as [|op ops IH]; intros t0 H0; simpl; auto.
      apply IH. now apply store_ok_step. }
    apply G. constructor.
Qed.

Lemma collect_bound (chunks : list TerrainChunk) :
    forall (off : Z) (vs : list vec3) (ixs : list Z),
    Forall chunk_ok chunks ->
    0 <= off <= Z.of_nat (length vs) ->
    Forall (fun i => 0 <= i < Z.of_nat (length vs)) ixs ->
    Forall (fun i => 0 <= i < Z.of_nat (length (fst (collect chunks off vs ixs))))
           (snd (collect chunks off vs ixs)).
Proof.
    induction chunks as [|c chunks IH]; intros off vs ixs Hok Hoff Hixs; simpl; auto.
    inversion Hok as [|c' l' Hc Hrest]; subst.
    destruct (isGenerated c); simpl; [|apply IH; auto].
    unfold u32_add, to_u32. apply IH; auto.
    - rewrite length_app, length_map, Nat2Z.inj_add. split.
      + apply Z.mod_pos_bound. lia.
      + etransitivity; [apply Z.mod_le; try lia|].
        * pose proof (Z.mod_pos_bound (Z.of_nat (length (vertices c))) (2 ^ 32)). lia.
        * pose proof (Z.mod_le (Z.of_nat (length (vertices c))) (2 ^ 32)). lia.
    - rewrite length_app, length_map, Nat2Z.inj_add. apply Forall_app. split.
      + eapply Forall_impl; [|exact Hixs]. simpl. lia.
      + apply Forall_map. eapply Forall_impl; [|exact Hc]. simpl. intros i Hi. split.
        * apply Z.mod_pos_bound. lia.
        * pose proof (Z.mod_le (i + off) (2 ^ 32)). lia.
Qed.

End StoreFacts.

(** ** The placement resolver *)

Section PlacementFacts.

Variable simplex : vec2 -> float.
Variables cosf sinf : float -> float.

  (** C9.  With a null terrain, [PlaceOnTerrain] returns its input unchanged
      and [IsPositionFlat] returns false; both are total functions, so
      nothing is thrown. *)
Theorem null_terrain_is_harmless (pos : vec3) (objectHeight tolerance : float) :
    PlaceOnTerrain simplex pos None objectHeight = pos /\
    IsPositionFlat simplex cosf sinf pos None tolerance = false.
Proof. split; reflexivity. Qed.

Lemma clamp_is_fmax (v : float) :
    is_nan v = false ->
    (if flt v (lit 1 2) then lit 1 2 else v) = fmax (lit 1 2) v.
Proof.
    intros Hv. replace (lit 1 2) with (S754_finite false 8388608 (-24))
      by (vm_compute; reflexivity).
    set (h := S754_finite false 8388608 (-24)).
    pose proof (SFcompare_key v h Hv eq_refl) as K.
    unfold fmax, flt, SFltb.
    destruct (SFcompare v h) as [c|] eqn:E; [|contradiction].
    rewrite (SFcompare_antisym _ _ _ E).
    destruct c; simpl; try reflexivity.
    destruct v as [s|s| |s m e]; simpl in K; try discriminate;
      destruct s; try discriminate.
    injection K as -> ->. reflexivity.
Qed.

  (** C4.  Over a non-null terrain, [PlaceOnTerrain] keeps [x] and [z] and
      sets the vertical coordinate to [v = (height(x,z) + objectHeight) + 1.0]
      raised to 0.5 when it is below, that is to [max(0.5, v)] for every [v]
      that is a number. *)
Theorem PlaceOnTerrain_snaps (t : TerrainGenerator) (pos : vec3) (objectHeight : float) :
    let v := fadd (fadd (GetHeightAt simplex t (vx pos) (vz pos)) objectHeight) one in
    let p := PlaceOnTerrain simplex pos (Some t) objectHeight in
    vx p = vx pos /\ vz p = vz pos /\
    vy p = (if flt v (lit 1 2) then lit 1 2 else v) /\
    (is_nan v = false -> vy p = fmax (lit 1 2) v).
Proof.
    intros v p. repeat split.
    intros Hv. unfold p, PlaceOnTerrain. cbn [vy].
    fold v. now apply clamp_is_fmax.
Qed.

Lemma variation_step_eq (center : vec3) (t : TerrainGenerator) (r hc m : float) (i : Z) :
    variation_step simplex cosf sinf center t r hc m i =
    fmax m (fabs (fsub (sample_height simplex cosf sinf t center r i) hc)).
Proof. reflexivity. Qed.

  (** Over a level terrain the running maximum never leaves zero. *)
Lemma level_variation (center : vec3) (t : TerrainGenerator) (r c : float) (l : list Z) :
    (forall x z, GetHeightAt simplex t x z = c) ->
    fold_left (variation_step simplex cosf sinf center t r c) l zero = zero.
Proof.
    intros Hc. induction l as [|i l IH]; simpl; auto.
    rewrite variation_step_eq. unfold sample_height. rewrite Hc.
    destruct (fsub_diag c) as [-> | ->]; exact IH.
Qed.

Lemma variation_not_nan (center : vec3) (t : TerrainGenerator) (r hc : float) (l : list Z) :
    forall m, is_nan m = false ->
    is_nan (fold_left (variation_step simplex cosf sinf center t r hc) l m) = false.
Proof.
    induction l as [|i l IH]; intros m Hm; simpl; auto.
    apply IH. rewrite variation_step_eq. now apply fmax_not_nan.
Qed.

  (** Once the running maximum has reached [b] it stays there. *)
Lemma variation_keeps_bound (center : vec3) (t : TerrainGenerator) (r hc b : float)
      (l : list Z) :
    forall m, fle b m = true ->
    fle b (fold_left (variation_step simplex cosf sinf center t r hc) l m) = true.
Proof.
    induction l as [|i l IH]; intros m Hm; simpl; auto.
    apply IH. rewrite variation_step_eq. unfold fmax.
    destruct (flt m _) eqn:E; auto. eapply fle_flt_trans; eauto.
Qed.

Lemma variation_reaches_sample (center : vec3) (t : TerrainGenerator) (r hc b : float)
      (l : list Z) (k : Z) :
    In k l ->
    fle b (fabs (fsub (sample_height simplex cosf sinf t center r k) hc)) = true ->
    forall m, is_nan m = false ->
    fle b (fold_left (variation_step simplex cosf sinf center t r hc) l m) = true.
Proof.
    intros Hk Hb. induction l as [|i l IH]; intros m Hm; simpl; [contradiction|].
    destruct Hk as [-> | Hk].
    - apply variation_keeps_bound. rewrite variation_step_eq. unfold fmax.
      destruct (flt m _) eqn:E; auto.
      eapply fle_trans_not_lt; eauto.
    - apply IH; auto. rewrite variation_step_eq. now apply fmax_not_nan.
Qed.

  (** C7 (as amended).  Over a terrain of constant height [IsPositionFlat]
      returns true for every tolerance that is at least zero.  Over any
      terrain, if the height at one of the eight sampled points of the circle
      of radius 2 differs from the height at the position by at least 10, it
      returns false for every tolerance below 10. *)
Theorem IsPositionFlat_level_and_sampled_jump
      (t : TerrainGenerator) (pos : vec3) (tolerance : float) :
    (forall c, (forall x z, GetHeightAt simplex t x z = c) ->
               fle zero tolerance = true ->
               IsPositionFlat simplex cosf sinf pos (Some t) tolerance = true) /\
    (forall i, 0 <= i < 8 ->
               fle (of_int 10)
                   (fabs (fsub (sample_height simplex cosf sinf t pos (of_int 2) i)
                               (GetHeightAt simplex t (vx pos) (vz pos)))) = true ->
               flt tolerance (of_int 10) = true ->
               IsPositionFlat simplex cosf sinf pos (Some t) tolerance = false).
Proof.
    split.
    - intros c Hc Htol. unfold IsPositionFlat, GetAreaHeightVariation.
      rewrite Hc, level_variation; auto.
    - intros i Hi Hjump Htol. unfold IsPositionFlat, GetAreaHeightVariation.
      eapply flt_fle_not_fle; [exact Htol|].
      eapply variation_reaches_sample; eauto.
      apply In_zrange. lia.
Qed.

End PlacementFacts.

(** ** Concrete runs of the chunk store *)

Section Scenarios.

Variable simplex : vec2 -> float.

Lemma GenerateTerrainAt_accepted (t : TerrainGenerator) (centerPos : vec2) :
    moved_too_little t centerPos = false ->
    m_lastCenterPos (GenerateTerrainAt simplex t centerPos) = centerPos /\
    m_chunkScale (GenerateTerrainAt simplex t centerPos) = m_chunkScale t /\
    m_chunks (GenerateTerrainAt simplex t centerPos) =
      CleanupDistantChunks t centerPos (fst (window_loops simplex t centerPos)).
Proof.
    intros H. unfold GenerateTerrainAt. rewrite H.
    destruct (window_loops simplex t centerPos) as [chunks b]. auto.
Qed.

  (** The hysteresis: a call at the centre of the last accepted call changes
      nothing, whenever half the chunk scale is positive. *)
Lemma GenerateTerrainAt_same_center (t : TerrainGenerator) :
    moved_too_little t (m_lastCenterPos t) = true ->
    GenerateTerrainAt simplex t (m_lastCenterPos t) = t.
Proof. intros H. unfold GenerateTerrainAt. now rewrite H. Qed.

  (** C2.  With the parameters of scenario A and a fresh generator, the
      first [GenerateTerrainAt((0,0))] creates 49 chunks, one at every grid
      coordinate of the 7 x 7 window around chunk (0,0), and evicts none; a
      second call at (0,0) is rejected by the hysteresis test and leaves the
      generator as it is. *)
Theorem scenario_A_first_and_second_call :
    let t1 := GenerateTerrainAt simplex app_terrain origin in
    m_chunks app_terrain = [] /\
    length (fst (window_loops simplex app_terrain origin)) = 49%nat /\
    length (m_chunks t1) = 49%nat /\
    forallb (fun xz => existsb (chunk_at app_terrain (fst xz) (snd xz)) (m_chunks t1))
            (window 0 0 3) = true /\
    moved_too_little t1 origin = true /\
    GenerateTerrainAt simplex t1 origin = t1.
Proof.
    intros t1.
    assert (Hacc : moved_too_little app_terrain origin = false) by (vm_compute; reflexivity).
    destruct (GenerateTerrainAt_accepted app_terrain origin Hacc) as [Hc [Hs Hch]].
    fold t1 in Hc, Hs, Hch.
    assert (Hrun :
      let w := fst (window_loops simplex app_terrain origin) in
      let kept := CleanupDistantChunks app_terrain origin w in
      (Nat.eqb (length w) 49 && Nat.eqb (length kept) 49 &&
       forallb (fun xz => existsb (chunk_at app_terrain (fst xz) (snd xz)) kept)
               (window 0 0 3)) = true) by (vm_compute; reflexivity).
    cbv zeta in Hrun. rewrite <- Hch in Hrun.
    apply andb_prop in Hrun. destruct Hrun as [Hrun H3].
    apply andb_prop in Hrun. destruct Hrun as [H1 H2].
    apply Nat.eqb_eq in H1. apply Nat.eqb_eq in H2.
    assert (Hrej : moved_too_little t1 origin = true).
    { unfold moved_too_little. rewrite Hc, Hs. vm_compute. reflexivity. }
    split; [reflexivity|]. split; [exact H1|]. split; [exact H2|].
    split; [exact H3|]. split; [exact Hrej|].
    unfold GenerateTerrainAt. rewrite Hrej. reflexivity.
Qed.

  (** C6 (as amended).  Take a chunk scale [o * 2 ^ k] for which the offset
      of the last column, [(chunkSize - 1) * stepSize] as the code computes
      it, is the chunk scale itself, and two chunks that are neighbours in
      [x] (or in [z]) and whose origins [cx * chunkScale] and
      [(cx + 1) * chunkScale] need no rounding.  Then the two chunks give
      every vertex of their shared edge the same position, height
      included. *)
Theorem seam_continuity_when_last_offset_is_exact
      (t : TerrainGenerator) (o k cx cz j : Z) :
    m_chunkScale t = dyadic o k -> 0 < o -> -126 <= k <= 104 ->
    last_offset t = m_chunkScale t ->
    Z.abs cx * o < 2 ^ 24 -> Z.abs (cx + 1) * o < 2 ^ 24 ->
    Z.abs cz * o < 2 ^ 24 -> Z.abs (cz + 1) * o < 2 ^ 24 ->
    0 <= j < m_chunkSize t ->
    position (vertex_of t (CreateChunk simplex t cx cz) (m_chunkSize t - 1) j) =
    position (vertex_of t (CreateChunk simplex t (cx + 1) cz) 0 j) /\
    position (vertex_of t (CreateChunk simplex t cx cz) j (m_chunkSize t - 1)) =
    position (vertex_of t (CreateChunk simplex t cx (cz + 1)) j 0).
Proof.
    intros Hs Ho Hk Hlast Hx Hx1 Hz Hz1 Hj.
    rewrite !position_vertex_of by lia.
    unfold chunk_vertex. cbn [position].
    unfold last_offset in Hlast. rewrite !Hlast.
    assert (Hfin : exists s m e, m_chunkScale t = S754_finite s m e).
    { rewrite Hs. unfold dyadic. rewrite dyadic_exact by nia.
      destruct o; try lia. unfold signed_canon, canon. eauto. }
    destruct Hfin as [s [m [e Hfin]]].
    destruct (mul_zero_finite _ _ s m e (eq_trans Hlast Hfin)) as [sg Hzero].
    rewrite !Hzero.
    pose proof (seam_arith o k cx Ho Hx Hx1 Hk) as Ex.
    pose proof (seam_arith o k cz Ho Hz Hz1 Hk) as Ez.
    fold (dyadic o k) in Ex, Ez. rewrite <- Hs in Ex, Ez.
    assert (Ax : fadd (fmul (of_int (cx + 1)) (m_chunkScale t)) (S754_zero sg)
                 = fmul (of_int (cx + 1)) (m_chunkScale t)).
    { rewrite Hs. unfold dyadic. rewrite of_int_exact, dyadic_exact, mul_exact
        by (rewrite ?Z.abs_mul; nia). apply add_zero_r. }
    assert (Az : fadd (fmul (of_int (cz + 1)) (m_chunkScale t)) (S754_zero sg)
                 = fmul (of_int (cz + 1)) (m_chunkScale t)).
    { rewrite Hs. unfold dyadic. rewrite of_int_exact, dyadic_exact, mul_exact
        by (rewrite ?Z.abs_mul; nia). apply add_zero_r. }
    rewrite Ax, Az, Ex, Ez. split; reflexivity.
Qed.

  (** The condition on the last offset cannot be dropped: the seam between
      the chunks 0 and 1 holds only under it.  If the last column of chunk
      [(0, cz)] and the first column of chunk [(1, cz)] get the same world
      [x], and that [x] is a number, then the offset of the last column is
      the chunk scale. *)
Lemma seam_at_origin_needs_exact_last_offset (t : TerrainGenerator) (o k cz j : Z) :
    m_chunkScale t = dyadic o k -> 0 < o < 2 ^ 24 -> -126 <= k <= 104 ->
    0 <= j < m_chunkSize t ->
    is_nan (vx (position (vertex_of t (CreateChunk simplex t 0 cz) (m_chunkSize t - 1) j)))
      = false ->
    vx (position (vertex_of t (CreateChunk simplex t 0 cz) (m_chunkSize t - 1) j)) =
    vx (position (vertex_of t (CreateChunk simplex t 1 cz) 0 j)) ->
    last_offset t = m_chunkScale t.
Proof.
    intros Hs Ho Hk Hj.
    rewrite !position_vertex_of by lia.
    unfold chunk_vertex, last_offset. cbn [position vx].
    assert (H1 : fmul (of_int 1) (m_chunkScale t) = m_chunkScale t).
    { rewrite Hs. unfold dyadic. rewrite of_int_exact, dyadic_exact, mul_exact by lia.
      f_equal. lia. }
    assert (H0 : fmul (of_int 0) (m_chunkScale t) = S754_zero false).
    { rewrite Hs. unfold dyadic. rewrite dyadic_exact by lia.
      destruct o; try lia. reflexivity. }
    rewrite H1, H0.
    assert (Hfin : exists m e, m_chunkScale t = S754_finite false m e).
    { rewrite Hs. unfold dyadic. rewrite dyadic_exact by lia.
      destruct o; try lia. unfold signed_canon, canon. eauto. }
    destruct Hfin as [m [e Hfin]].
    generalize (fmul (of_int (m_chunkSize t - 1))
                     (fdiv (m_chunkScale t) (of_int (m_chunkSize t - 1)))).
    generalize (fdiv (m_chunkScale t) (of_int (m_chunkSize t - 1))).
    rewrite Hfin. intros step last Hnan Heq.
    destruct step as [sg|sg| |sg ms es]; destruct last as [sl|sl| |sl ml el];
      cbn in Hnan, Heq; try discriminate; try (destruct sg; discriminate);
      try (destruct sl; discriminate); try (destruct sg, sl; discriminate);
      try exact Heq.
Qed.

End Scenarios.

(** ** The zone catalogue *)

(** C8.  [CreateZonedLayout] returns five zones: the treasure zone of radius
    8 at the origin and the forest, desert, mountain and grassland zones of
    radius 12 at (15,0,15), (15,0,-15), (-15,0,15) and (-15,0,-15); for every
    two different zones the distance of the centres exceeds the sum of the
    radii. *)
Theorem CreateZonedLayout_five_disjoint_zones :
  map (fun z => (LayoutManager.zone_theme z, LayoutManager.center z, LayoutManager.radius z))
      LayoutManager.CreateZonedLayout =
  [ ("treasure"%string, mkvec3 zero zero zero, of_int 8);
    ("forest"%string, mkvec3 (of_int 15) zero (of_int 15), of_int 12);
    ("desert"%string, mkvec3 (of_int 15) zero (of_int (-15)), of_int 12);
    ("mountain"%string, mkvec3 (of_int (-15)) zero (of_int 15), of_int 12);
    ("grassland"%string, mkvec3 (of_int (-15)) zero (of_int (-15)), of_int 12) ] /\
  length (ordered_pairs LayoutManager.CreateZonedLayout) = 20%nat /\
  forallb zones_apart (ordered_pairs LayoutManager.CreateZonedLayout) = true.
Proof.
  split; [vm_compute; reflexivity|]. split; vm_compute; reflexivity.
Qed.

(** ** The zone planner *)

Section DistanceFacts.

Lemma binary_round_aux_opp (m e : Z) (l : location) :
    binary_round_aux F32.prec F32.emax true m e l =
    SFopp (binary_round_aux F32.prec F32.emax false m e l).
Proof.
    unfold binary_round_aux.
    destruct (shr_fexp F32.prec F32.emax m e l) as [mrs' e'].
    destruct (shr_fexp F32.prec F32.emax _ e' loc_Exact) as [mrs'' e''].
    destruct (shr_m mrs''); try reflexivity.
    destruct (e'' <=? F32.emax - F32.prec); reflexivity.
Qed.

Lemma binary_normalize_opp (m e : Z) :
    m <> 0 ->
    binary_normalize F32.prec F32.emax (- m) e false =
    SFopp (binary_normalize F32.prec F32.emax m e false).
Proof.
    intros Hm. destruct m as [|p|p]; try contradiction; simpl; unfold binary_round;
      destruct (shl_align _ _ _) as [mz ez]; rewrite binary_round_aux_opp.
    - reflexivity.
    - destruct (binary_round_aux _ _ false _ _ _) as [s|s| |s m0 e0]; simpl;
        now rewrite ?Bool.negb_involutive.
Qed.

Lemma fmul_opp_opp (a : float) : fmul (SFopp a) (SFopp a) = fmul a a.
Proof. destruct a as [s|s| |s m e]; try destruct s; reflexivity. Qed.

  (** The square of a difference does not depend on the order of its terms. *)
Lemma sq_fsub_sym (a b : float) :
    fmul (fsub a b) (fsub a b) = fmul (fsub b a) (fsub b a).
Proof.
    destruct a as [sa|sa| |sa ma ea], b as [sb|sb| |sb mb eb];
      try (destruct sa; try destruct sb; reflexivity);
      try (destruct sb; reflexivity); try reflexivity.
    unfold fsub, SFsub. cbv zeta. rewrite (Z.min_comm eb ea).
    set (x := cond_Zopp sa (Z.pos (fst (shl_align ma ea (Z.min ea eb))))).
    set (y := cond_Zopp sb (Z.pos (fst (shl_align mb eb (Z.min ea eb))))).
    destruct (Z.eq_dec (x - y) 0) as [E|E].
    - replace (y - x) with 0 by lia. now rewrite E.
    - replace (y - x) with (- (x - y)) by lia.
      rewrite binary_normalize_opp by exact E. apply eq_sym, fmul_opp_opp.
Qed.

Lemma distance_sym (a b : vec3) :
    LayoutManager.distance a b = LayoutManager.distance b a.
Proof.
    unfold LayoutManager.distance, length3, dot3, sub3. cbn [vx vy vz].
    now rewrite (sq_fsub_sym (vx a)), (sq_fsub_sym (vy a)), (sq_fsub_sym (vz a)).
Qed.

End DistanceFacts.

Section PlannerFacts.

Variable simplex : vec2 -> float.
Variables cosf sinf : float -> float.
Variable Gen : Type.
Variable uniform_real : float -> float -> Gen -> float * Gen.
Variable uniform_int : Z -> Z -> Gen -> Z * Gen.
Variable terrainGenerator : option TerrainGenerator.

Let attempt_loop :=
    LayoutManager.attempt_loop simplex cosf sinf Gen uniform_real terrainGenerator.
Let make_object := LayoutManager.make_object Gen uniform_real uniform_int.
Let slot_loop :=
    LayoutManager.slot_loop simplex cosf sinf Gen uniform_real uniform_int terrainGenerator.
Let PlaceObjectsInZone :=
    LayoutManager.PlaceObjectsInZone simplex cosf sinf Gen uniform_real uniform_int
                                     terrainGenerator.

Lemma spaced_nil (d : float) : spaced d [].
Proof. intros [|p pre] q post H; discriminate. Qed.

Lemma spaced_snoc (d : float) (l : list vec3) (q : vec3) :
    spaced d l -> LayoutManager.CheckMinimumDistance q l d = true -> spaced d (l ++ [q]).
Proof.
    intros Hl Hq pre q' post E.
    destruct (rev post) as [|x rpost] eqn:R.
    - apply (f_equal (@rev _)) in R. rewrite rev_involutive in R. simpl in R. subst post.
      apply app_inj_tail in E. destruct E as [-> ->]. exact Hq.
    - apply (f_equal (@rev _)) in R. rewrite rev_involutive in R. simpl in R. subst post.
      change (pre ++ q' :: rev rpost ++ [x]) with (pre ++ (q' :: rev rpost) ++ [x]) in E.
      rewrite app_assoc in E. apply app_inj_tail in E. destruct E as [-> _].
      eapply Hl. reflexivity.
Qed.

Lemma spaced_nth (d : float) (l : list vec3) (i j : nat) (p q : vec3) :
    spaced d l -> (i < j)%nat -> nth_error l i = Some p -> nth_error l j = Some q ->
    flt (LayoutManager.distance q p) d = false.
Proof.
    intros Hl Hij Hi Hj.
    destruct (nth_error_split l j Hj) as [pre [post [E Hlen]]].
    pose proof (Hl pre q post E) as Hc.
    unfold LayoutManager.CheckMinimumDistance in Hc. rewrite forallb_forall in Hc.
    assert (Hp : In p pre).
    { subst l. rewrite nth_error_app1 in Hi by lia. eapply nth_error_In; eauto. }
    specialize (Hc p Hp). now apply negb_true_iff in Hc.
Qed.

  (** The [while] loop either accepts a position that passed the spacing
      test and appends it, or leaves the accepted positions as they are. *)
Lemma attempt_loop_spec (zone : LayoutManager.LayoutZone) (attempts : nat) :
    forall pos used gen,
    let '(valid, pos', used', gen') := attempt_loop zone attempts pos used gen in
    if valid
    then used' = used ++ [pos'] /\
         LayoutManager.CheckMinimumDistance pos' used (LayoutManager.minDistance zone) = true
    else used' = used.
Proof.
    induction attempts as [|n IH]; intros pos used gen; simpl; auto.
    unfold attempt_loop in *. simpl.
    destruct (LayoutManager.angleDist Gen uniform_real gen) as [angle gen1].
    destruct (LayoutManager.radiusDist Gen uniform_real gen1) as [r gen2].
    destruct (LayoutManager.IsWithinTerrainBounds _); [|apply IH].
    destruct (LayoutManager.CheckMinimumDistance _ used _) eqn:E; [|apply IH].
    auto.
Qed.

Lemma position_make_object (zone : LayoutManager.LayoutZone) (pos : vec3) (gen : Gen) :
    LayoutManager.position (fst (make_object zone pos gen)) = pos.
Proof.
    unfold make_object, LayoutManager.make_object.
    destruct (LayoutManager.angleDist Gen uniform_real gen) as [yaw gen1].
    destruct (String.eqb _ _).
    - destruct (uniform_int 0 1 gen1). reflexivity.
    - destruct (uniform_int 0 2 gen1). reflexivity.
Qed.

Lemma slot_loop_spec (zone : LayoutManager.LayoutZone) (slots : nat) :
    forall used objects gen,
    spaced (LayoutManager.minDistance zone) used ->
    exists new,
      fst (slot_loop zone slots used objects gen) = objects ++ new /\
      (length new <= slots)%nat /\
      spaced (LayoutManager.minDistance zone) (used ++ map LayoutManager.position new).
Proof.
    induction slots as [|n IH]; intros used objects gen Hs.
    - exists []. simpl. rewrite !app_nil_r. auto.
    - unfold slot_loop in *. cbn [LayoutManager.slot_loop].
      pose proof (attempt_loop_spec zone LayoutManager.maxAttempts (vec3_splat zero) used gen) as A.
      unfold attempt_loop in A.
      destruct (LayoutManager.attempt_loop _ _ _ _ _ _ _ _ _ _ _) as [[[valid pos] used'] gen'].
      destruct valid.
      + destruct A as [-> Hc].
        pose proof (position_make_object zone pos gen') as Hp.
        unfold make_object in Hp.
        destruct (LayoutManager.make_object Gen uniform_real uniform_int zone pos gen')
          as [obj gen''].
        simpl in Hp.
        destruct (IH (used ++ [pos]) (objects ++ [obj]) gen'') as [new [H1 [H2 H3]]].
        { now apply spaced_snoc. }
        exists (obj :: new). rewrite H1, <- app_assoc. simpl. rewrite Hp.
        rewrite <- app_assoc in H3. simpl in H3. repeat split; auto. lia.
      + subst used'. destruct (IH used objects gen') as [new [H1 [H2 H3]]]; auto.
        exists new. repeat split; auto.
Qed.

  (** C3.  In one run of [PlaceObjectsInZone], any two different objects
      that the run appends are not closer than [zone.minDistance]: the test
      [distance < minDistance] is false for them (in either order), and when
      the distance and [minDistance] are numbers, [minDistance <= distance]. *)
Theorem PlaceObjectsInZone_spacing
      (zone : LayoutManager.LayoutZone) (objects new : list LayoutManager.LayoutObject)
      (gen : Gen) (i j : nat) (a b : LayoutManager.LayoutObject) :
    fst (PlaceObjectsInZone zone objects gen) = objects ++ new ->
    nth_error new i = Some a -> nth_error new j = Some b -> i <> j ->
    let d := LayoutManager.distance (LayoutManager.position a) (LayoutManager.position b) in
    flt d (LayoutManager.minDistance zone) = false /\
    (is_nan d = false -> is_nan (LayoutManager.minDistance zone) = false ->
     fle (LayoutManager.minDistance zone) d = true).
Proof.
    intros Hrun Ha Hb Hij d.
    destruct (slot_loop_spec zone (Z.to_nat (LayoutManager.maxObjects zone)) [] objects gen
                (spaced_nil _)) as [new' [H1 [_ H3]]].
    unfold PlaceObjectsInZone, LayoutManager.PlaceObjectsInZone in Hrun.
    unfold slot_loop in H1. rewrite H1 in Hrun. apply app_inv_head in Hrun. subst new'.
    simpl in H3.
    assert (Hd : flt d (LayoutManager.minDistance zone) = false).
    { destruct (Nat.lt_total i j) as [Hlt | [Heq | Hgt]]; [| contradiction |].
      - unfold d. rewrite distance_sym.
        eapply spaced_nth; [exact H3 | exact Hlt | |];
          rewrite nth_error_map; [now rewrite Ha | now rewrite Hb].
      - eapply spaced_nth; [exact H3 | exact Hgt | |];
          rewrite nth_error_map; [now rewrite Hb | now rewrite Ha]. }
    split; [exact Hd|]. intros N1 N2. now apply flt_false_fle.
Qed.

End PlannerFacts.

(** ** Runs on concrete inputs *)

(** The flag is raised by the first call of a fresh 2 x 2 generator and is
    still up after a second call and a change of parameters. *)
Lemma flag_true_after_first_call :
  HasTerrainUpdated
    (run flat_noise (GenerateTerrainAt flat_noise small_terrain origin)
         [OpGenerateTerrainAt (mkvec2 (of_int 130) zero); OpSetOctaves 2]) = true.
Proof.
  refine (proj1 (flag_true_from_creation_until_reset flat_noise small_terrain origin
                   [OpGenerateTerrainAt (mkvec2 (of_int 130) zero); OpSetOctaves 2] _ _ _)).
  - vm_compute. reflexivity.
  - apply Nat.ltb_lt. vm_compute. reflexivity.
  - reflexivity.
Defined.

(** C1.  The terrain changes and [HasTerrainUpdated] does not report it: on
    the 2 x 2 generator, after accepted calls at (0,0) and (130,0) and a
    reset of the flag, the call at (134,0) is accepted, creates no chunk and
    evicts six of the 91 stored chunks, so that the collision mesh that
    [GetCollisionData] returns shrinks from 364 to 340 vertices; the flag is
    false before the call and false after it. *)
Theorem eviction_only_call_leaves_flag_false :
  HasTerrainUpdated evict_before = false /\
  moved_too_little evict_before evict_center = false /\
  snd (window_loops flat_noise evict_before evict_center) = false /\
  length (m_chunks evict_before) = 91%nat /\
  length (m_chunks evict_after) = 85%nat /\
  length (fst (GetCollisionData evict_before [] [])) = 364%nat /\
  length (fst (GetCollisionData evict_after [] [])) = 340%nat /\
  HasTerrainUpdated evict_after = false.
Proof.
  split; [vm_compute; reflexivity|]. split; [vm_compute; reflexivity|].
  split; [vm_compute; reflexivity|]. split; [vm_compute; reflexivity|].
  split; [vm_compute; reflexivity|]. split; [vm_compute; reflexivity|].
  split; vm_compute; reflexivity.
Qed.

(** C5.  At the centre (-4,-4) of the shipped generator (chunk scale 8) the
    code takes chunk (0,0) as the centre chunk, where rounding the quotient
    -0.5 toward minus infinity gives (-1,-1): [static_cast<int>] truncates
    toward zero. *)
Theorem centerChunk_truncates_toward_zero :
  centerChunk app_terrain (mkvec2 (of_int (-4)) (of_int (-4))) = (0, 0) /\
  centerChunk_floor app_terrain (mkvec2 (of_int (-4)) (of_int (-4))) = (-1, -1) /\
  centerChunk app_terrain (mkvec2 (of_int 4) (of_int 4)) = (0, 0) /\
  centerChunk_floor app_terrain (mkvec2 (of_int 4) (of_int 4)) = (0, 0).
Proof. repeat split; vm_compute; reflexivity. Qed.

(** C6, as the claim words it, fails: with 14 x 14 vertices per chunk and a
    chunk scale of 7.0, the last column of chunk (0,0) lies at
    [x = 13 * (7/13) = 7.0000005] and the first column of chunk (1,0) at
    [x = 7.0], and over a noise function that grows with [x] the two
    chunks give the shared vertex different heights. *)
Lemma seam_mismatch_14_by_7 :
  vx (position (vertex_of seam_terrain (CreateChunk ramp_noise seam_terrain 0 0) 13 0))
    = S754_finite false 14680065 (-21) /\
  vx (position (vertex_of seam_terrain (CreateChunk ramp_noise seam_terrain 1 0) 0 0))
    = S754_finite false 14680064 (-21) /\
  vy (position (vertex_of seam_terrain (CreateChunk ramp_noise seam_terrain 0 0) 13 0))
    = S754_finite false 14680065 (-20) /\
  vy (position (vertex_of seam_terrain (CreateChunk ramp_noise seam_terrain 1 0) 0 0))
    = S754_finite false 14680064 (-20).
Proof. repeat split; vm_compute; reflexivity. Qed.

(** The offset of the last column is the chunk scale for the shipped
    geometry (16 x 8.0), for the default geometry (64 x 1.0) and for every
    chunk size from 2 to 41 at the scale 8.0; it is not for 42 x 8.0 and for
    14 x 7.0. *)
Lemma last_offset_examples :
  last_offset app_terrain = m_chunkScale app_terrain /\
  last_offset default_terrain = m_chunkScale default_terrain /\
  forallb (fun n => float_eqb (last_offset (TerrainGenerator_new n (of_int 8))) (of_int 8))
          (zrange 2 40) = true /\
  float_eqb (last_offset (TerrainGenerator_new 42 (of_int 8))) (of_int 8) = false /\
  float_eqb (last_offset seam_terrain) (m_chunkScale seam_terrain) = false.
Proof.
  split; [vm_compute; reflexivity|]. split; [vm_compute; reflexivity|].
  split; [vm_compute; reflexivity|]. split; vm_compute; reflexivity.
Qed.

(** The seams of the shipped geometry far from the origin, around chunk
    (16777214, -16777215), and of the default geometry around chunk (-1, 0),
    at the third vertex of the edge. *)
Lemma seam_continuity_far_from_origin :
  (position (vertex_of app_terrain (CreateChunk ramp_noise app_terrain 16777214 (-16777215))
                       (m_chunkSize app_terrain - 1) 2) =
   position (vertex_of app_terrain
                       (CreateChunk ramp_noise app_terrain (16777214 + 1) (-16777215)) 0 2) /\
   position (vertex_of app_terrain (CreateChunk ramp_noise app_terrain 16777214 (-16777215))
                       2 (m_chunkSize app_terrain - 1)) =
   position (vertex_of app_terrain
                       (CreateChunk ramp_noise app_terrain 16777214 (-16777215 + 1)) 2 0)) /\
  (position (vertex_of default_terrain (CreateChunk ramp_noise default_terrain (-1) 0)
                       (m_chunkSize default_terrain - 1) 2) =
   position (vertex_of default_terrain (CreateChunk ramp_noise default_terrain (-1 + 1) 0) 0 2) /\
   position (vertex_of default_terrain (CreateChunk ramp_noise default_terrain (-1) 0)
                       2 (m_chunkSize default_terrain - 1)) =
   position (vertex_of default_terrain (CreateChunk ramp_noise default_terrain (-1) (0 + 1)) 2 0)).
Proof.
  split.
  - apply (seam_continuity_when_last_offset_is_exact ramp_noise app_terrain 1 3
             16777214 (-16777215) 2);
      try (vm_compute; reflexivity); try (split; [lia | reflexivity]); lia.
  - apply (seam_continuity_when_last_offset_is_exact ramp_noise default_terrain 1 0
             (-1) 0 2);
      try (vm_compute; reflexivity); try (split; [lia | reflexivity]); lia.
Defined.

(** Scenario B over the flat terrain: the object lands at height 2.0. *)
Lemma scenario_B_flat_terrain :
  vy (PlaceOnTerrain flat_noise (mkvec3 (of_int 5) zero (of_int 5)) (Some app_terrain) one)
    = fmax (lit 1 2)
           (fadd (fadd (GetHeightAt flat_noise app_terrain (of_int 5) (of_int 5)) one) one).
Proof.
  refine (proj2 (proj2 (proj2 (PlaceOnTerrain_snaps flat_noise app_terrain
                                 (mkvec3 (of_int 5) zero (of_int 5)) one))) _).
  vm_compute. reflexivity.
Defined.

(** C7, as the claim words it, fails: [spike_terrain] is 10 units high at
    (1/4, 1/4), inside the circle of radius 2 around the origin, and 0 at the
    origin, and [IsPositionFlat] returns true at the origin for the
    tolerance 5. *)
Lemma jump_between_samples_goes_unnoticed :
  GetHeightAt spike_noise spike_terrain (lit 1 4) (lit 1 4) = of_int 10 /\
  GetHeightAt spike_noise spike_terrain zero zero = zero /\
  flt (length2 (mkvec2 (lit 1 4) (lit 1 4))) (of_int 2) = true /\
  flt (of_int 5) (of_int 10) = true /\
  IsPositionFlat spike_noise cos_tab sin_tab (mkvec3 zero zero zero)
                 (Some spike_terrain) (of_int 5) = true.
Proof. repeat split; vm_compute; reflexivity. Qed.

Lemma flat_noise_is_level (x z : float) : GetHeightAt flat_noise app_terrain x z = zero.
Proof. vm_compute. reflexivity. Qed.

(** The flat terrain passes with tolerance 0; a cliff of 10 units across the
    line [x = 1] fails with tolerance 5, since the sample at angle 0 lies
    beyond it. *)
Lemma level_passes_and_cliff_fails :
  IsPositionFlat flat_noise cos_tab sin_tab (mkvec3 zero zero zero) (Some app_terrain) zero
    = true /\
  IsPositionFlat cliff_noise cos_tab sin_tab (mkvec3 zero zero zero) (Some spike_terrain)
                 (of_int 5) = false.
Proof.
  split.
  - refine (proj1 (IsPositionFlat_level_and_sampled_jump flat_noise cos_tab sin_tab
                     app_terrain (mkvec3 zero zero zero) zero) zero _ _).
    + exact flat_noise_is_level.
    + reflexivity.
  - refine (proj2 (IsPositionFlat_level_and_sampled_jump cliff_noise cos_tab sin_tab
                     spike_terrain (mkvec3 zero zero zero) (of_int 5)) 0 _ _ _).
    + lia.
    + vm_compute. reflexivity.
    + vm_compute. reflexivity.
Defined.

(** The two objects placed for [demo_zone] are 8 units apart. *)
Lemma demo_objects_are_spaced :
  length demo_objects = 2%nat /\
  flt (LayoutManager.distance
         (LayoutManager.position (nth 0 demo_objects default_object))
         (LayoutManager.position (nth 1 demo_objects default_object)))
      (LayoutManager.minDistance demo_zone) = false.
Proof.
  split; [vm_compute; reflexivity|].
  refine (proj1 (PlaceObjectsInZone_spacing flat_noise cos_tab sin_tab Tape.Gen
                   Tape.uniform_real Tape.uniform_int (Some app_terrain) demo_zone []
                   demo_objects demo_tape 0 1
                   (nth 0 demo_objects default_object) (nth 1 demo_objects default_object)
                   _ _ _ _)).
  - reflexivity.
  - vm_compute. reflexivity.
  - vm_compute. reflexivity.
  - discriminate.
Defined.

(** * Further properties of the chunk store *)

Section StoreMore.

Variable simplex : vec2 -> float.

Lemma fsub_self_finite (c : float) : is_finite c = true -> fsub c c = zero.
Proof.
  destruct c as [s|s| |s m e]; try discriminate; intros _.
  - destruct s; reflexivity.
  - unfold fsub, SFsub. rewrite Z.sub_diag. reflexivity.
Qed.

Lemma moved_too_little_same_center (t : TerrainGenerator) :
  is_finite (x2 (m_lastCenterPos t)) = true -> is_finite (y2 (m_lastCenterPos t)) = true ->
  flt zero (fmul (m_chunkScale t) (lit 1 2)) = true ->
  moved_too_little t (m_lastCenterPos t) = true.
Proof.
  intros Hx Hy Hs. unfold moved_too_little, sub2, length2, dot2. cbn [x2 y2].
  rewrite (fsub_self_finite _ Hx), (fsub_self_finite _ Hy).
  exact Hs.
Qed.

(** X1.  Hysteresis: for a centre with finite coordinates and a generator
    whose half chunk scale is positive, a second [GenerateTerrainAt] call at
    the same centre changes nothing. *)
Theorem GenerateTerrainAt_twice_same_center (t : TerrainGenerator) (centerPos : vec2) :
  is_finite (x2 centerPos) = true -> is_finite (y2 centerPos) = true ->
  flt zero (fmul (m_chunkScale t) (lit 1 2)) = true ->
  GenerateTerrainAt simplex (GenerateTerrainAt simplex t centerPos) centerPos =
  GenerateTerrainAt simplex t centerPos.
Proof.
  intros Hx Hy Hs. destruct (moved_too_little t centerPos) eqn:E.
  - unfold GenerateTerrainAt. now rewrite !E.
  - destruct (GenerateTerrainAt_accepted simplex t centerPos E) as [Hc [Hsc _]].
    revert Hc Hsc. generalize (GenerateTerrainAt simplex t centerPos). intros t1 Hc Hsc.
    subst centerPos. apply GenerateTerrainAt_same_center.
    apply moved_too_little_same_center; try assumption. now rewrite Hsc.
Qed.

(** The window loops: at most one chunk per window coordinate, each made
    by [CreateChunk] at that coordinate. *)
Lemma window_fold_created (t : TerrainGenerator) (w : list (Z * Z)) :
  forall (chunks : list TerrainChunk) (b : bool),
  exists created,
    fst (fold_left (window_step simplex t) w (chunks, b)) = chunks ++ created /\
    (length created <= length w)%nat /\
    Forall (fun c => exists x z, In (x, z) w /\ c = CreateChunk simplex t x z) created.
Proof.
  induction w as [|[x z] w IH]; intros chunks b; cbn [fold_left].
  - exists []. simpl. rewrite app_nil_r. auto.
  - unfold window_step at 2. destruct (existsb (chunk_at t x z) chunks).
    + destruct (IH chunks b) as [c [H1 [H2 H3]]]. exists c. split; [exact H1|].
      split; [simpl; lia|]. eapply Forall_impl; [|exact H3].
      intros a [x' [z' [Hin ->]]]. exists x', z'. split; [now right|reflexivity].
    + destruct (IH (chunks ++ [CreateChunk simplex t x z]) true) as [c [H1 [H2 H3]]].
      exists (CreateChunk simplex t x z :: c). rewrite H1, <- app_assoc. split; [reflexivity|].
      split; [simpl; lia|]. constructor.
      * exists x, z. split; [now left|reflexivity].
      * eapply Forall_impl; [|exact H3].
        intros a [x' [z' [Hin ->]]]. exists x', z'. split; [now right|reflexivity].
Qed.

Lemma In_window (cx cz r x z : Z) :
  In (x, z) (window cx cz r) <-> cx - r <= x <= cx + r /\ cz - r <= z <= cz + r.
Proof.
  unfold window. rewrite in_flat_map. split.
  - intros [x' [Hx Hz]]. apply in_map_iff in Hz. destruct Hz as [z' [E Hz]].
    injection E as -> ->. apply In_zrange in Hx. apply In_zrange in Hz. lia.
  - intros [Hx Hz]. exists x. split; [apply In_zrange; lia|].
    apply in_map_iff. exists z. split; [reflexivity|apply In_zrange; lia].
Qed.

Lemma length_window (cx cz : Z) : length (window cx cz 3) = 49%nat.
Proof.
  unfold window. rewrite (length_flat_map_rows _ 7).
  - now rewrite length_zrange.
  - intros r. now rewrite length_map, length_zrange.
Qed.

(** X2.  An accepted [GenerateTerrainAt] call creates at most 49 chunks,
    each by [CreateChunk] at a grid coordinate within 3 of the centre chunk
    in [x] and in [z]; the store it leaves is the old store followed by the
    new chunks, in that order, without the chunks that [CleanupDistantChunks]
    removes: a chunk already stored is never rebuilt or changed. *)
Theorem GenerateTerrainAt_creates_window_chunks (t : TerrainGenerator) (centerPos : vec2) :
  moved_too_little t centerPos = false ->
  exists created,
    (length created <= 49)%nat /\
    Forall (fun c => exists x z,
              fst (centerChunk t centerPos) - 3 <= x <= fst (centerChunk t centerPos) + 3 /\
              snd (centerChunk t centerPos) - 3 <= z <= snd (centerChunk t centerPos) + 3 /\
              c = CreateChunk simplex t x z) created /\
    m_chunks (GenerateTerrainAt simplex t centerPos) =
      CleanupDistantChunks t centerPos (m_chunks t ++ created).
Proof.
  intros Hacc. destruct (GenerateTerrainAt_accepted simplex t centerPos Hacc) as [_ [_ Hch]].
  rewrite Hch. unfold window_loops. destruct (centerChunk t centerPos) as [cx cz]. cbn [fst snd].
  destruct (window_fold_created t (window cx cz 3) (m_chunks t) false) as [c [H1 [H2 H3]]].
  exists c. rewrite H1. rewrite length_window in H2. repeat split; auto.
  eapply Forall_impl; [|exact H3]. intros a [x [z [Hin ->]]].
  apply In_window in Hin. exists x, z. repeat split; lia.
Qed.

End StoreMore.

Section StoreInvariants.

Variable simplex : vec2 -> float.

Lemma reachable_induction (P : TerrainGenerator -> Prop) :
  (forall chunkSize chunkScale, P (TerrainGenerator_new chunkSize chunkScale)) ->
  (forall t op, P t -> P (step simplex t op)) ->
  forall t, reachable simplex t -> P t.
Proof.
  intros Hnew Hstep t [n [s [ops ->]]]. unfold run.
  generalize (Hnew n s). generalize (TerrainGenerator_new n s).
  induction ops as [|op ops IH]; intros t0 H0; cbn [fold_left]; auto.
Qed.

Lemma length_flat_map_uniform {A B : Type} (f : A -> list B) (k : nat) (l : list A) :
  Forall (fun a => length (f a) = k) l -> length (flat_map f l) = (length l * k)%nat.
Proof.
  induction 1 as [|a l Ha Hl IH]; simpl; auto. now rewrite length_app, Ha, IH.
Qed.

Lemma length_indices_CreateChunk (t : TerrainGenerator) (cx cz : Z) :
  length (indices (CreateChunk simplex t cx cz)) =
  (6 * (Z.to_nat (m_chunkSize t - 1) * Z.to_nat (m_chunkSize t - 1)))%nat.
Proof.
  rewrite indices_CreateChunk.
  rewrite (length_flat_map_rows _ (Z.to_nat (m_chunkSize t - 1) * 6)).
  - rewrite length_zrange. lia.
  - intros z. rewrite (length_flat_map_rows _ 6).
    + now rewrite length_zrange.
    + reflexivity.
Qed.

Lemma is_distant_ext (t t' : TerrainGenerator) (c : vec2) (ch : TerrainChunk) :
  m_renderDistance t' = m_renderDistance t -> is_distant t' c ch = is_distant t c ch.
Proof. intros H. unfold is_distant. now rewrite H. Qed.

Lemma fields_GenerateTerrainAt (t : TerrainGenerator) (centerPos : vec2) :
  m_chunkSize (GenerateTerrainAt simplex t centerPos) = m_chunkSize t /\
  m_renderDistance (GenerateTerrainAt simplex t centerPos) = m_renderDistance t /\
  m_noiseScale (GenerateTerrainAt simplex t centerPos) = m_noiseScale t /\
  m_heightScale (GenerateTerrainAt simplex t centerPos) = m_heightScale t /\
  m_octaves (GenerateTerrainAt simplex t centerPos) = m_octaves t.
Proof.
  unfold GenerateTerrainAt. destruct (moved_too_little t centerPos); auto.
  destruct (window_loops simplex t centerPos); auto.
Qed.

Lemma stored_ok_GenerateTerrainAt (t : TerrainGenerator) (centerPos : vec2) :
  Forall (stored_ok t) (m_chunks t) ->
  Forall (stored_ok (GenerateTerrainAt simplex t centerPos))
         (m_chunks (GenerateTerrainAt simplex t centerPos)).
Proof.
  intros H. destruct (moved_too_little t centerPos) eqn:E.
  - unfold GenerateTerrainAt. now rewrite E.
  - destruct (GenerateTerrainAt_accepted simplex t centerPos E) as [Hc [_ Hch]].
    destruct (fields_GenerateTerrainAt t centerPos) as [Hn [Hr _]].
    unfold window_loops in Hch. destruct (centerChunk t centerPos) as [cx cz].
    destruct (window_fold_created simplex t (window cx cz 3) (m_chunks t) false)
      as [created [H1 [_ H3]]].
    rewrite H1 in Hch. revert Hc Hn Hr Hch.
    generalize (GenerateTerrainAt simplex t centerPos). intros t1 Hc Hn Hr Hch.
    rewrite Hch. apply Forall_forall. intros ch Hin.
    apply filter_In in Hin. destruct Hin as [Hin Hkeep].
    apply negb_true_iff in Hkeep.
    unfold stored_ok. rewrite Hn, Hc, (is_distant_ext t t1 _ _ Hr).
    apply in_app_or in Hin. destruct Hin as [Hin|Hin].
    + rewrite Forall_forall in H. destruct (H ch Hin) as [G1 [G2 [G3 _]]]. auto.
    + rewrite Forall_forall in H3. destruct (H3 ch Hin) as [x [z [_ ->]]].
      repeat split; auto using length_CreateChunk, length_indices_CreateChunk.
Qed.

Lemma stored_ok_step (t : TerrainGenerator) (op : Op) :
  Forall (stored_ok t) (m_chunks t) ->
  Forall (stored_ok (step simplex t op)) (m_chunks (step simplex t op)).
Proof.
  intros H. destruct op; try exact H; apply stored_ok_GenerateTerrainAt; exact H.
Qed.

Lemma stored_ok_reachable (t : TerrainGenerator) :
  reachable simplex t -> Forall (stored_ok t) (m_chunks t).
Proof.
  revert t. apply (reachable_induction (fun t => Forall (stored_ok t) (m_chunks t))).
  - intros n s. constructor.
  - intros t0 op. apply stored_ok_step.
Qed.

(** X3.  In every state that a program can reach, each stored chunk is
    generated, has [chunkSize * chunkSize] vertices and six indices per grid
    cell, and is not farther than 1.5 times the render distance from the
    centre of the last accepted call (the predicate of
    [CleanupDistantChunks] is false for it). *)
Theorem reachable_store_is_near_and_uniform (t : TerrainGenerator) :
  reachable simplex t ->
  Forall (fun c => isGenerated c = true /\
                   length (vertices c) =
                     (Z.to_nat (m_chunkSize t) * Z.to_nat (m_chunkSize t))%nat /\
                   length (indices c) =
                     (6 * (Z.to_nat (m_chunkSize t - 1) * Z.to_nat (m_chunkSize t - 1)))%nat /\
                   is_distant t (m_lastCenterPos t) c = false)
         (m_chunks t).
Proof. exact (stored_ok_reachable t). Qed.

Lemma collect_generated (chunks : list TerrainChunk) :
  forall (off : Z) (vs : list vec3) (ixs : list Z),
  Forall (fun c => isGenerated c = true) chunks ->
  fst (collect chunks off vs ixs) = vs ++ flat_map (fun c => map position (vertices c)) chunks /\
  length (snd (collect chunks off vs ixs)) = (length ixs + length (flat_map indices chunks))%nat.
Proof.
  induction chunks as [|c chunks IH]; intros off vs ixs H; simpl.
  - rewrite app_nil_r. auto.
  - inversion H as [|c' l' Hc Hrest]; subst. rewrite Hc. simpl.
    destruct (IH (u32_add off (to_u32 (Z.of_nat (length (vertices c)))))
                 (vs ++ map position (vertices c))
                 (ixs ++ map (fun index => u32_add index off) (indices c)) Hrest) as [H1 H2].
    rewrite H1, H2, <- app_assoc, !length_app, length_map. split; [reflexivity|lia].
Qed.

(** X4.  In every reachable state [GetCollisionData] emits the vertex
    positions of the stored chunks, chunk after chunk in store order:
    [chunkSize * chunkSize] vertices and [6 * (chunkSize - 1)^2] indices for
    each stored chunk. *)
Theorem GetCollisionData_emits_every_chunk
    (t : TerrainGenerator) (vertices0 : list vec3) (indices0 : list Z) :
  reachable simplex t ->
  fst (GetCollisionData t vertices0 indices0) =
    flat_map (fun c => map position (vertices c)) (m_chunks t) /\
  length (fst (GetCollisionData t vertices0 indices0)) =
    (length (m_chunks t) * (Z.to_nat (m_chunkSize t) * Z.to_nat (m_chunkSize t)))%nat /\
  length (snd (GetCollisionData t vertices0 indices0)) =
    (length (m_chunks t) *
     (6 * (Z.to_nat (m_chunkSize t - 1) * Z.to_nat (m_chunkSize t - 1))))%nat.
Proof.
  intros Hr.
  pose proof (stored_ok_reachable t Hr) as Hok.
  unfold GetCollisionData.
  destruct (collect_generated (m_chunks t) 0 [] []) as [H1 H2].
  { eapply Forall_impl; [|exact Hok]. intros c Hc. apply Hc. }
  rewrite H1, H2. simpl. split; [reflexivity|]. split.
  - apply length_flat_map_uniform. eapply Forall_impl; [|exact Hok].
    intros c [_ [Hc _]]. now rewrite length_map.
  - apply length_flat_map_uniform. eapply Forall_impl; [|exact Hok].
    intros c [_ [_ [Hc _]]]. exact Hc.
Qed.

Lemma GetHeightAt_ext (t t' : TerrainGenerator) (x z : float) :
  m_noiseScale t' = m_noiseScale t -> m_heightScale t' = m_heightScale t ->
  m_octaves t' = m_octaves t ->
  GetHeightAt simplex t' x z = GetHeightAt simplex t x z.
Proof. intros H1 H2 H3. unfold GetHeightAt, GetHeightNoise. now rewrite H1, H2, H3. Qed.

(** X5.  [GetHeightAt] never returns a value below the ground level -0.1,
    and streaming does not change it: after [GenerateTerrainAt] and
    [ResetTerrainUpdateFlag] it returns what it returned before, inside and
    outside the stored chunks. *)
Theorem GetHeightAt_ground_level_and_streaming
    (t : TerrainGenerator) (x z : float) (centerPos : vec2) :
  flt (GetHeightAt simplex t x z) groundLevel = false /\
  GetHeightAt simplex (GenerateTerrainAt simplex t centerPos) x z = GetHeightAt simplex t x z /\
  GetHeightAt simplex (ResetTerrainUpdateFlag t) x z = GetHeightAt simplex t x z.
Proof.
  split.
  - unfold GetHeightAt, GetHeightNoise, fmax. fold groundLevel.
    set (h := octave_loop simplex _ x z zero _ _).
    destruct (flt h groundLevel) eqn:E; [reflexivity | exact E].
  - split; [|reflexivity].
    destruct (fields_GenerateTerrainAt t centerPos) as [_ [_ [H1 [H2 H3]]]].
    now apply GetHeightAt_ext.
Qed.

Lemma on_height_field_CreateChunk (t : TerrainGenerator) (cx cz : Z) :
  on_height_field simplex t (CreateChunk simplex t cx cz).
Proof.
  unfold on_height_field.
  apply (Forall_map position
           (fun p => vy p = GetHeightAt simplex t (vx p) (vz p))).
  rewrite positions_CreateChunk. apply Forall_forall. intros p Hp.
  apply in_flat_map in Hp. destruct Hp as [z [_ Hp]].
  apply in_map_iff in Hp. destruct Hp as [x [<- _]]. reflexivity.
Qed.

Lemma on_height_field_ext (t t' : TerrainGenerator) (c : TerrainChunk) :
  m_noiseScale t' = m_noiseScale t -> m_heightScale t' = m_heightScale t ->
  m_octaves t' = m_octaves t ->
  on_height_field simplex t c -> on_height_field simplex t' c.
Proof.
  intros H1 H2 H3 H. unfold on_height_field in *.
  eapply Forall_impl; [|exact H]. intros v Hv. cbv beta in *.
  now rewrite (GetHeightAt_ext t t') by assumption.
Qed.

Lemma on_height_field_step (t : TerrainGenerator) (op : Op) :
  is_setter op = false ->
  Forall (on_height_field simplex t) (m_chunks t) ->
  Forall (on_height_field simplex (step simplex t op)) (m_chunks (step simplex t op)).
Proof.
  intros Hop H.
  assert (G : forall c, Forall (on_height_field simplex (GenerateTerrainAt simplex t c))
                               (m_chunks (GenerateTerrainAt simplex t c))).
  { intros c. destruct (moved_too_little t c) eqn:E.
    - unfold GenerateTerrainAt. now rewrite E.
    - destruct (GenerateTerrainAt_accepted simplex t c E) as [_ [_ Hch]].
      destruct (fields_GenerateTerrainAt t c) as [_ [_ [F1 [F2 F3]]]].
      destruct (window_loops_spec simplex t c) as [created [H1 [_ H3]]].
      rewrite H1 in Hch. revert F1 F2 F3 Hch.
      generalize (GenerateTerrainAt simplex t c). intros t1 F1 F2 F3 Hch.
      rewrite Hch. apply Forall_forall. intros ch Hin.
      apply filter_In in Hin. destruct Hin as [Hin _].
      apply (on_height_field_ext t t1); auto.
      apply in_app_or in Hin. destruct Hin as [Hin|Hin].
      + rewrite Forall_forall in H. auto.
      + rewrite Forall_forall in H3. destruct (H3 ch Hin) as [x [z ->]].
        apply on_height_field_CreateChunk. }
  destruct op; try discriminate; try exact H; apply G.
Qed.

(** X6.  When the generation parameters are not changed after the first
    chunk is created, the stored mesh agrees with the height query: every
    vertex of every stored chunk has the height that [GetHeightAt] returns at
    its [x] and [z]. *)
Theorem stored_mesh_lies_on_height_field (t0 : TerrainGenerator) (ops : list Op) :
  m_chunks t0 = [] ->
  forallb (fun op => negb (is_setter op)) ops = true ->
  Forall (on_height_field simplex (run simplex t0 ops)) (m_chunks (run simplex t0 ops)).
Proof.
  intros H0 Hops.
  assert (G : Forall (on_height_field simplex t0) (m_chunks t0)) by (rewrite H0; constructor).
  clear H0. revert t0 G. unfold run.
  induction ops as [|op ops IH]; intros t0 G; cbn [fold_left]; auto.
  simpl in Hops. apply andb_prop in Hops. destruct Hops as [Hop Hops].
  apply IH; auto. apply on_height_field_step; auto. now apply negb_true_iff.
Qed.

End StoreInvariants.

(** * The collision mesh *)

Section CollisionMesh.

Variable simplex : vec2 -> float.

Lemma firstn_length_app {A : Type} (l r : list A) : firstn (length l) (l ++ r) = l.
Proof. induction l as [|a l IH]; simpl; [now destruct r|now rewrite IH]. Qed.

Lemma skipn_length_app {A : Type} (l r : list A) : skipn (length l) (l ++ r) = r.
Proof. induction l as [|a l IH]; simpl; auto. Qed.

Lemma length_flat_map_positions (chunks : list TerrainChunk) :
  length (flat_map (fun c => map position (vertices c)) chunks)
  = length (flat_map vertices chunks).
Proof.
  induction chunks as [|c chunks IH]; simpl; auto.
  now rewrite !length_app, length_map, IH.
Qed.

  (** [collect] only appends to the index vector. *)
Lemma collect_appends (chunks : list TerrainChunk) :
  forall (off : Z) (vs : list vec3) (ixs : list Z),
  exists ixs2, snd (collect chunks off vs ixs) = ixs ++ ixs2.
Proof.
  induction chunks as [|c chunks IH]; intros off vs ixs; simpl.
  - exists []. now rewrite app_nil_r.
  - destruct (isGenerated c); simpl; [|apply IH].
    destruct (IH (u32_add off (to_u32 (Z.of_nat (length (vertices c)))))
                 (vs ++ map position (vertices c))
                 (ixs ++ map (fun index => u32_add index off) (indices c))) as [ixs2 H].
    rewrite H, <- app_assoc. eauto.
Qed.

Lemma to_u32_add_idemp (a b : Z) : u32_add a (to_u32 b) = to_u32 (a + b).
Proof. unfold u32_add, to_u32. now rewrite Zplus_mod_idemp_r. Qed.

Lemma to_u32_to_u32 (a : Z) : to_u32 (to_u32 a) = to_u32 a.
Proof. unfold to_u32. apply Z.mod_mod. lia. Qed.

  (** After the chunks [pre], the loop of [GetCollisionData] has emitted
      their indices, and [vertexOffset] is the number of their vertices. *)
Lemma collect_prefix (pre rest : list TerrainChunk) :
  forall (off : Z) (vs : list vec3) (ixs : list Z),
  Forall (fun c => isGenerated c = true) pre ->
  to_u32 off = off ->
  exists vs1 ixs1,
    length ixs1 = length (flat_map indices pre) /\
    collect (pre ++ rest) off vs ixs =
    collect rest (to_u32 (off + Z.of_nat (length (flat_map vertices pre)))) vs1 (ixs ++ ixs1).
Proof.
  induction pre as [|c pre IH]; intros off vs ixs Hgen Hoff.
  - exists vs, []. cbn [flat_map length app]. rewrite Z.add_0_r, Hoff, app_nil_r. auto.
  - inversion Hgen as [|c' l' Hc Hpre]; subst.
    cbn [app collect]. rewrite Hc. cbn [negb].
    destruct (IH (u32_add off (to_u32 (Z.of_nat (length (vertices c)))))
                 (vs ++ map position (vertices c))
                 (ixs ++ map (fun index => u32_add index off) (indices c)) Hpre)
      as [vs1 [ixs1 [H1 H2]]].
    { apply to_u32_to_u32. }
    exists vs1, (map (fun index => u32_add index off) (indices c) ++ ixs1). split.
    + cbn [flat_map]. rewrite !length_app, length_map, H1. reflexivity.
    + rewrite H2, <- app_assoc. f_equal.
      cbn [flat_map]. rewrite length_app, Nat2Z.inj_add.
      rewrite to_u32_add_idemp. unfold to_u32.
      rewrite Zplus_mod_idemp_l. f_equal. lia.
Qed.

  (** The index block of one stored chunk. *)
Lemma collect_block (pre post : list TerrainChunk) (c : TerrainChunk) :
  Forall (fun c => isGenerated c = true) (pre ++ c :: post) ->
  firstn (length (indices c))
         (skipn (length (flat_map indices pre)) (snd (collect (pre ++ c :: post) 0 [] [])))
  = map (fun index => to_u32 (index + Z.of_nat (length (flat_map vertices pre)))) (indices c).
Proof.
  intros Hgen. apply Forall_app in Hgen. destruct Hgen as [Hpre Hc].
  inversion Hc as [|c' l' Hc' _]; subst.
  destruct (collect_prefix pre (c :: post) 0 [] [] Hpre eq_refl) as [vs1 [ixs1 [H1 H2]]].
  rewrite H2. cbn [collect app]. rewrite Hc'. cbn [negb].
  destruct (collect_appends post
              (u32_add (to_u32 (0 + Z.of_nat (length (flat_map vertices pre))))
                       (to_u32 (Z.of_nat (length (vertices c)))))
              (vs1 ++ map position (vertices c))
              (ixs1 ++ map (fun index =>
                              u32_add index
                                (to_u32 (0 + Z.of_nat (length (flat_map vertices pre)))))
                           (indices c))) as [ixs2 H3].
  rewrite H3, <- app_assoc, <- H1, skipn_length_app.
  rewrite <- (length_map (fun index =>
                u32_add index (to_u32 (0 + Z.of_nat (length (flat_map vertices pre)))))
              (indices c)) at 1.
  rewrite firstn_length_app. apply map_ext. intros index.
  rewrite to_u32_add_idemp. reflexivity.
Qed.

  (** C10.  In every state of the store that a program can reach,
      [GetCollisionData] discards what the caller's vectors held and emits
      the vertex positions of the stored chunks, chunk after chunk.  Every
      index it emits is smaller than the number of vertices it emits.  The
      indices of each chunk come out in one block, each shifted (as an
      [unsigned int]) by the number of vertices of the chunks before it; as
      long as the vertex count fits an [unsigned int], the shifted index
      addresses, in the emitted vertex list, the very vertex that the index
      addresses in its chunk. *)
Theorem GetCollisionData_indices_in_range
    (t : TerrainGenerator) (vertices0 : list vec3) (indices0 : list Z) :
  reachable simplex t ->
  GetCollisionData t vertices0 indices0 = GetCollisionData t [] [] /\
  fst (GetCollisionData t vertices0 indices0)
    = flat_map (fun c => map position (vertices c)) (m_chunks t) /\
  length (snd (GetCollisionData t vertices0 indices0))
    = length (flat_map indices (m_chunks t)) /\
  Forall (fun i => 0 <= i < Z.of_nat (length (fst (GetCollisionData t vertices0 indices0))))
         (snd (GetCollisionData t vertices0 indices0)) /\
  forall (pre : list TerrainChunk) (c : TerrainChunk) (post : list TerrainChunk),
    m_chunks t = pre ++ c :: post ->
    let vertexOffset := Z.of_nat (length (flat_map vertices pre)) in
    firstn (length (indices c))
           (skipn (length (flat_map indices pre))
                  (snd (GetCollisionData t vertices0 indices0)))
      = map (fun index => to_u32 (index + vertexOffset)) (indices c) /\
    (Z.of_nat (length (fst (GetCollisionData t vertices0 indices0))) <= 2 ^ 32 ->
     forall index, In index (indices c) ->
       to_u32 (index + vertexOffset) = index + vertexOffset /\
       nth (Z.to_nat (index + vertexOffset))
           (fst (GetCollisionData t vertices0 indices0)) (position default_vertex)
         = position (nth (Z.to_nat index) (vertices c) default_vertex)).
Proof.
  intros Hr.
  pose proof (store_ok_reachable simplex t Hr) as Hok.
  assert (Hgen : Forall (fun c => isGenerated c = true) (m_chunks t)).
  { eapply Forall_impl; [|exact (stored_ok_reachable simplex t Hr)]. intros c Hc. apply Hc. }
  destruct (collect_generated (m_chunks t) 0 [] [] Hgen) as [Hfst Hlen].
  cbn [app length Nat.add] in Hfst, Hlen.
  unfold GetCollisionData.
  split; [reflexivity|]. split; [exact Hfst|]. split; [exact Hlen|]. split.
  { apply collect_bound; [exact Hok|simpl; lia|constructor]. }
  intros pre c post Hsplit. split.
  { rewrite Hsplit. apply collect_block. now rewrite <- Hsplit. }
  intros Hfit index Hin.
  rewrite Hfst, Hsplit in *. rewrite flat_map_app in *. cbn [flat_map] in *.
  rewrite !length_app, length_map, length_flat_map_positions in Hfit.
  assert (Hc : chunk_ok c).
  { rewrite Forall_forall in Hok. apply Hok. apply in_or_app. right. now left. }
  unfold chunk_ok in Hc. rewrite Forall_forall in Hc. specialize (Hc index Hin).
  split.
  - unfold to_u32. apply Z.mod_small. lia.
  - replace (Z.to_nat (index + Z.of_nat (length (flat_map vertices pre))))
      with (length (flat_map (fun c => map position (vertices c)) pre) + Z.to_nat index)%nat
      by (rewrite length_flat_map_positions; lia).
    rewrite app_nth2_plus, app_nth1 by (rewrite length_map; lia).
    apply map_nth.
Qed.

End CollisionMesh.

(** * Further properties of the placement resolver and the zone planner *)

Section OrderMore.

Lemma fle_trans (a b c : float) : fle a b = true -> fle b c = true -> fle a c = true.
Proof.
  intros Hab Hbc. destruct (fle_not_nan _ _ Hab) as [Ha _].
  destruct (fle_not_nan _ _ Hbc) as [_ Hc].
  apply key_fle; auto. apply fle_key in Hab. apply fle_key in Hbc.
  destruct (key a) as [[a1 a2] a3], (key b) as [[b1 b2] b3], (key c) as [[c1 c2] c3].
  unfold key_lt in *.
  destruct Hab as [Hab|Hab], Hbc as [Hbc|Hbc];
    try (injection Hab as -> -> ->); try (injection Hbc as -> -> ->); auto.
  left. lia.
Qed.

Lemma key_flt (a b : float) :
  is_nan a = false -> is_nan b = false -> key_lt (key a) (key b) -> flt a b = true.
Proof.
  intros Ha Hb H. pose proof (SFcompare_key a b Ha Hb) as K.
  unfold flt, SFltb. destruct (SFcompare a b) as [[ | | ]|]; try reflexivity; try contradiction;
    exfalso; destruct (key a) as [[a1 a2] a3], (key b) as [[b1 b2] b3]; unfold key_lt in *.
  - injection K as -> -> ->. lia.
  - lia.
Qed.

Lemma flt_fle_trans (a b c : float) : flt a b = true -> fle b c = true -> flt a c = true.
Proof.
  intros Hab Hbc. destruct (flt_not_nan _ _ Hab) as [Ha _].
  destruct (fle_not_nan _ _ Hbc) as [_ Hc].
  apply key_flt; auto. apply flt_key in Hab. apply fle_key in Hbc.
  destruct (key a) as [[a1 a2] a3], (key b) as [[b1 b2] b3], (key c) as [[c1 c2] c3].
  unfold key_lt in *.
  destruct Hbc as [Hbc|Hbc]; try (injection Hbc as -> -> ->); auto. lia.
Qed.

Lemma flt_irrefl (a : float) : flt a a = false.
Proof.
  destruct (flt a a) eqn:E; auto. apply flt_key in E.
  destruct (key a) as [[a1 a2] a3]. unfold key_lt in E. lia.
Qed.

(** [a < b] and [not (c < b)] exclude [c < a], for a number [c]. *)
Lemma flt_below_floor (a b c : float) :
  flt a b = true -> flt c b = false -> is_nan c = false -> flt c a = false.
Proof.
  intros Hab Hcb Hc. destruct (flt_not_nan _ _ Hab) as [Ha Hb].
  pose proof (flt_false_fle _ _ Hcb Hc Hb) as Hbc.
  destruct (flt c a) eqn:E; auto. exfalso.
  apply flt_key in Hab. apply fle_key in Hbc. apply flt_key in E.
  destruct (key a) as [[a1 a2] a3], (key b) as [[b1 b2] b3], (key c) as [[c1 c2] c3].
  unfold key_lt in *.
  destruct Hbc as [Hbc|Hbc]; try (injection Hbc as -> -> ->); lia.
Qed.

End OrderMore.

Section PlacementMore.

Variable simplex : vec2 -> float.
Variables cosf sinf : float -> float.

Lemma variation_nonneg (center : vec3) (terrain : option TerrainGenerator) (r : float) :
  fle zero (GetAreaHeightVariation simplex cosf sinf center terrain r) = true.
Proof.
  destruct terrain as [t|]; [|reflexivity].
  unfold GetAreaHeightVariation. now apply variation_keeps_bound.
Qed.

(** X7.  [IsPositionFlat] is monotone in the tolerance: if it accepts a
    position with one tolerance, that tolerance is a number that is at least
    zero, and the position is accepted with every larger tolerance. *)
Theorem IsPositionFlat_monotone
    (pos : vec3) (terrain : option TerrainGenerator) (tolerance tolerance' : float) :
  IsPositionFlat simplex cosf sinf pos terrain tolerance = true ->
  fle tolerance tolerance' = true ->
  fle zero tolerance = true /\
  IsPositionFlat simplex cosf sinf pos terrain tolerance' = true.
Proof.
  destruct terrain as [t|]; [|discriminate]. unfold IsPositionFlat. intros H Hle.
  pose proof (variation_nonneg pos (Some t) (of_int 2)) as H0.
  split; eapply fle_trans; eauto.
Qed.

(** X8.  Snapping is idempotent and does not read the input height:
    [PlaceOnTerrain] applied to its own result returns that result, two
    inputs with the same [x] and [z] give the same result over a non-null
    terrain, and that result is never below 0.5. *)
Theorem PlaceOnTerrain_idempotent
    (pos : vec3) (terrain : option TerrainGenerator) (t : TerrainGenerator)
    (objectHeight y' : float) :
  PlaceOnTerrain simplex (PlaceOnTerrain simplex pos terrain objectHeight) terrain objectHeight
    = PlaceOnTerrain simplex pos terrain objectHeight /\
  PlaceOnTerrain simplex (mkvec3 (vx pos) y' (vz pos)) (Some t) objectHeight
    = PlaceOnTerrain simplex pos (Some t) objectHeight /\
  flt (vy (PlaceOnTerrain simplex pos (Some t) objectHeight)) (lit 1 2) = false.
Proof.
  split; [destruct terrain; reflexivity|]. split; [reflexivity|].
  unfold PlaceOnTerrain. cbn [vy].
  set (v := fadd (fadd _ objectHeight) one).
  destruct (flt v (lit 1 2)) eqn:E; [apply flt_irrefl | exact E].
Qed.

End PlacementMore.

Section CenterChunkMore.

Lemma to_int_floor_nonneg (q : float) :
  fle zero q = true -> to_int q <> INT_MIN -> to_int q = floor_to_int q.
Proof.
  destruct q as [s|s| |s m e]; try reflexivity.
  destruct s; [discriminate|]. intros _. cbn [to_int floor_to_int].
  destruct (2 ^ 31 <=? _); [intros H; exfalso; apply H; reflexivity|].
  intros _. destruct e; reflexivity.
Qed.

(** X9.  Where both quotients [centerPos / chunkScale] are at least zero and
    within the range of [int], the centre chunk of [GenerateTerrainAt] is the
    floor of the quotient. *)
Theorem centerChunk_is_floor_for_nonnegative_quotients
    (t : TerrainGenerator) (centerPos : vec2) :
  fle zero (fdiv (x2 centerPos) (m_chunkScale t)) = true ->
  fle zero (fdiv (y2 centerPos) (m_chunkScale t)) = true ->
  fst (centerChunk t centerPos) <> INT_MIN ->
  snd (centerChunk t centerPos) <> INT_MIN ->
  centerChunk t centerPos = centerChunk_floor t centerPos.
Proof.
  intros Hx Hz Nx Nz. unfold centerChunk, centerChunk_floor in *. cbn [fst snd] in *.
  now rewrite (to_int_floor_nonneg _ Hx Nx), (to_int_floor_nonneg _ Hz Nz).
Qed.

End CenterChunkMore.

Section PlannerMore.

Variable simplex : vec2 -> float.
Variables cosf sinf : float -> float.
Variable Gen : Type.
Variable uniform_real : float -> float -> Gen -> float * Gen.
Variable uniform_int : Z -> Z -> Gen -> Z * Gen.
Variable terrainGenerator : option TerrainGenerator.

Lemma bounds_PlaceOnTerrain (pos : vec3) (h : float) :
  LayoutManager.IsWithinTerrainBounds (PlaceOnTerrain simplex pos terrainGenerator h) =
  LayoutManager.IsWithinTerrainBounds pos.
Proof. destruct terrainGenerator; reflexivity. Qed.

Lemma floor_PlaceOnTerrain (pos : vec3) (h : float) :
  terrainGenerator <> None ->
  flt (vy (PlaceOnTerrain simplex pos terrainGenerator h)) (lit 1 2) = false.
Proof.
  destruct terrainGenerator as [t|]; [intros _|intros H; now contradiction H].
  unfold PlaceOnTerrain. cbn [vy].
  set (v := fadd (fadd _ h) one).
  destruct (flt v (lit 1 2)) eqn:E; [apply flt_irrefl | exact E].
Qed.

(** A position that the [while] loop accepts is a snapped candidate that
    lies within the world bounds. *)
Lemma attempt_loop_accepts (zone : LayoutManager.LayoutZone) (attempts : nat) :
  forall pos used gen,
  let '(valid, pos', used', gen') :=
    LayoutManager.attempt_loop simplex cosf sinf Gen uniform_real terrainGenerator
                               zone attempts pos used gen in
  valid = true ->
  LayoutManager.IsWithinTerrainBounds pos' = true /\
  (terrainGenerator <> None -> flt (vy pos') (lit 1 2) = false).
Proof.
  induction attempts as [|n IH]; intros pos used gen; simpl; [discriminate|].
  destruct (LayoutManager.angleDist Gen uniform_real gen) as [angle gen1].
  destruct (LayoutManager.radiusDist Gen uniform_real gen1) as [r gen2].
  destruct (LayoutManager.IsWithinTerrainBounds _) eqn:B; [|apply IH].
  destruct (LayoutManager.CheckMinimumDistance _ used _) eqn:E; [|apply IH].
  intros _. split.
  - now rewrite bounds_PlaceOnTerrain.
  - apply floor_PlaceOnTerrain.
Qed.

Lemma make_object_spec (zone : LayoutManager.LayoutZone) (pos : vec3) (gen : Gen) :
  LayoutManager.IsWithinTerrainBounds pos = true ->
  (terrainGenerator <> None -> flt (vy pos) (lit 1 2) = false) ->
  well_placed terrainGenerator zone
              (fst (LayoutManager.make_object Gen uniform_real uniform_int zone pos gen)).
Proof.
  intros Hb Hf. unfold LayoutManager.make_object, well_placed.
  destruct (LayoutManager.angleDist Gen uniform_real gen) as [yaw gen1].
  destruct (String.eqb (LayoutManager.zone_theme zone) "treasure") eqn:T.
  - destruct (uniform_int 0 1 gen1) as [k gen2]. cbn.
    repeat split; auto. destruct (k =? 0); auto.
  - destruct (uniform_int 0 2 gen1) as [k gen2]. cbn.
    repeat split; auto. apply String.eqb_neq in T.
    destruct (k =? 0); auto. destruct (k =? 1); auto.
Qed.

Lemma slot_loop_well_placed (zone : LayoutManager.LayoutZone) (slots : nat) :
  forall used objects gen,
  exists new,
    fst (LayoutManager.slot_loop simplex cosf sinf Gen uniform_real uniform_int
           terrainGenerator zone slots used objects gen) = objects ++ new /\
    (length new <= slots)%nat /\
    Forall (well_placed terrainGenerator zone) new.
Proof.
  induction slots as [|n IH]; intros used objects gen.
  - exists []. simpl. rewrite app_nil_r. auto.
  - cbn [LayoutManager.slot_loop].
    pose proof (attempt_loop_accepts zone LayoutManager.maxAttempts (vec3_splat zero) used gen)
      as A.
    destruct (LayoutManager.attempt_loop _ _ _ _ _ _ _ _ _ _ _) as [[[valid pos] used'] gen'].
    destruct valid.
    + destruct (A eq_refl) as [Hb Hf].
      pose proof (make_object_spec zone pos gen' Hb Hf) as M.
      destruct (LayoutManager.make_object Gen uniform_real uniform_int zone pos gen')
        as [obj gen''].
      destruct (IH used' (objects ++ [obj]) gen'') as [new [H1 [H2 H3]]].
      exists (obj :: new). rewrite H1, <- app_assoc. repeat split; auto.
      simpl. lia.
    + destruct (IH used' objects gen') as [new [H1 [H2 H3]]].
      exists new. repeat split; auto.
Qed.

(** X10.  [PlaceObjectsInZone] leaves the objects it is given in place and
    appends at most [zone.maxObjects] objects (none when [maxObjects] is not
    positive).  Each has [x] and [z] within the world bound 40, a height that
    is not below 0.5 when the terrain is not null, the theme of the zone,
    scale 1, no pitch or roll, and the type chest or key, or decoration in a
    zone whose theme is not "treasure". *)
Theorem PlaceObjectsInZone_appends_well_placed_objects
    (zone : LayoutManager.LayoutZone) (objects : list LayoutManager.LayoutObject) (gen : Gen) :
  exists new,
    fst (LayoutManager.PlaceObjectsInZone simplex cosf sinf Gen uniform_real uniform_int
           terrainGenerator zone objects gen) = objects ++ new /\
    (length new <= Z.to_nat (LayoutManager.maxObjects zone))%nat /\
    Forall (well_placed terrainGenerator zone) new.
Proof. apply slot_loop_well_placed. Qed.

(** X11.  [IsPositionSuitable] rejects every position outside the world
    bounds, and the chest is the most demanding type: a position that is
    suitable for one type is suitable for every type that is not "chest",
    and a position suitable for a chest is suitable for every type. *)
Theorem IsPositionSuitable_chest_is_strictest (pos : vec3) (objectType other : string) :
  LayoutManager.IsPositionSuitable simplex cosf sinf terrainGenerator pos objectType = true ->
  (other = "chest"%string -> objectType = "chest"%string) ->
  LayoutManager.IsWithinTerrainBounds pos = true /\
  LayoutManager.IsPositionSuitable simplex cosf sinf terrainGenerator pos other = true.
Proof.
  unfold LayoutManager.IsPositionSuitable.
  destruct (LayoutManager.IsWithinTerrainBounds pos); [|discriminate]. cbn [negb].
  destruct terrainGenerator as [t|]; [|auto].
  destruct (IsPositionFlat simplex cosf sinf pos (Some t) (lit 8 10)); [|discriminate].
  cbn [negb]. intros H Ho. split; [reflexivity|].
  destruct (String.eqb other "chest") eqn:E; [|reflexivity].
  apply String.eqb_eq in E. rewrite (Ho E) in H. exact H.
Qed.

End PlannerMore.

Section SpacingMore.

(** X12.  The spacing test is monotone: a position that passes against a
    list of positions with a minimum distance passes against every part of
    the list and with every smaller minimum distance. *)
Theorem CheckMinimumDistance_monotone
    (newPos : vec3) (existing part : list vec3) (minDist minDist' : float) :
  LayoutManager.CheckMinimumDistance newPos existing minDist = true ->
  incl part existing -> fle minDist' minDist = true ->
  LayoutManager.CheckMinimumDistance newPos part minDist' = true.
Proof.
  unfold LayoutManager.CheckMinimumDistance. rewrite !forallb_forall.
  intros H Hincl Hle p Hp. specialize (H p (Hincl p Hp)).
  apply negb_true_iff in H. apply negb_true_iff.
  destruct (flt (LayoutManager.distance newPos p) minDist') eqn:E; auto.
  now rewrite (flt_fle_trans _ _ _ E Hle) in H.
Qed.

End SpacingMore.

Section ShippedGeometry.

Variable simplex : vec2 -> float.

Lemma origin_coord_exact (c : Z) : -4096 <= c <= 4096 -> origin_coord c = c.
Proof.
  intros Hc.
  assert (H : forallb (fun c => origin_coord c =? c) (zrange (-4096) 8193) = true)
    by (vm_compute; reflexivity).
  rewrite forallb_forall in H. apply Z.eqb_eq, H, In_zrange. lia.
Qed.

Lemma chunk_at_CreateChunk (t : TerrainGenerator) (x z x' z' : Z) :
  m_chunkSize t = 16 -> m_chunkScale t = of_int 8 ->
  -4096 <= x' <= 4096 -> -4096 <= z' <= 4096 ->
  chunk_at t x z (CreateChunk simplex t x' z') = (x =? x') && (z =? z').
Proof.
  intros Hn Hs Hx Hz. unfold chunk_at.
  replace (nth 0 (vertices (CreateChunk simplex t x' z')) default_vertex)
    with (vertex_of t (CreateChunk simplex t x' z') 0 0)
    by (unfold vertex_of; now rewrite Hn).
  rewrite position_vertex_of by lia.
  unfold chunk_vertex. cbn [position vx vz]. rewrite Hn, Hs.
  pose proof (origin_coord_exact x' Hx) as Ex. pose proof (origin_coord_exact z' Hz) as Ez.
  unfold origin_coord in Ex, Ez. rewrite Ex, Ez.
  destruct (Z.eqb_spec x x'), (Z.eqb_spec z z'), (Z.ltb_spec (Z.abs (x' - x)) 1),
    (Z.ltb_spec (Z.abs (z' - z)) 1); simpl; try reflexivity; lia.
Qed.

(** X13.  With the shipped geometry (16 x 16 vertices, chunk scale 8.0) and
    grid coordinates up to 4096 in absolute value, the scan of
    [GenerateTerrainAt] recognises a created chunk at its own coordinate
    and at no other, so a coordinate that the store already holds is never
    given a second chunk. *)
Theorem shipped_geometry_has_no_duplicate_chunks
    (t : TerrainGenerator) (chunks : list TerrainChunk) (newChunksGenerated : bool)
    (x z x' z' : Z) :
  m_chunkSize t = 16 -> m_chunkScale t = of_int 8 ->
  -4096 <= x' <= 4096 -> -4096 <= z' <= 4096 ->
  chunk_at t x z (CreateChunk simplex t x' z') = (x =? x') && (z =? z') /\
  (In (CreateChunk simplex t x' z') chunks ->
   window_step simplex t (chunks, newChunksGenerated) (x', z') = (chunks, newChunksGenerated)).
Proof.
  intros Hn Hs Hx Hz. split; [now apply chunk_at_CreateChunk|].
  intros Hin. unfold window_step.
  replace (existsb (chunk_at t x' z') chunks) with true; [reflexivity|].
  symmetry. apply existsb_exists. exists (CreateChunk simplex t x' z'). split; [exact Hin|].
  rewrite chunk_at_CreateChunk by assumption. now rewrite !Z.eqb_refl.
Qed.

End ShippedGeometry.

Section FlatSearch.

Variable simplex : vec2 -> float.
Variables cosf sinf : float -> float.

Lemma variation_number (center : vec3) (terrain : option TerrainGenerator) (r : float) :
  is_nan (GetAreaHeightVariation simplex cosf sinf center terrain r) = false.
Proof.
  destruct terrain as [t|]; [|reflexivity].
  unfold GetAreaHeightVariation. now apply variation_not_nan.
Qed.

Lemma probe_inv (center : vec3) (t : TerrainGenerator) (radius angle : float)
    (st : vec3 * float) :
  search_inv simplex cosf sinf center t st ->
  match probe simplex cosf sinf center t radius angle st with
  | inl st' => search_inv simplex cosf sinf center t st'
  | inr p => good_spot simplex cosf sinf center t p
  end.
Proof.
  destruct st as [best minV]. intros [Hmin [Hy Hge]]. cbn [fst snd] in *.
  unfold probe.
  set (testPos := mkvec3 _ (vy center) _).
  set (variation := GetAreaHeightVariation simplex cosf sinf testPos (Some t) (lit 3 2)).
  destruct (flt variation minV) eqn:E.
  - assert (G : good_spot simplex cosf sinf center t
                  (mkvec3 (vx testPos) (GetHeightAt simplex t (vx testPos) (vz testPos))
                          (vz testPos))).
    { split; [reflexivity|].
      change (GetAreaHeightVariation simplex cosf sinf (mkvec3 (vx testPos) _ (vz testPos))
                                     (Some t) (lit 3 2)) with variation.
      rewrite <- Hmin in Hge.
      eapply flt_below_floor; [exact E | exact Hge | apply variation_number]. }
    destruct (fle variation (lit 3 10)); [exact G|].
    split; [reflexivity | exact G].
  - split; [exact Hmin | split; [exact Hy | exact Hge]].
Qed.

Lemma angle_loop_inv (center : vec3) (t : TerrainGenerator) (radius : float) (fuel : nat) :
  forall angle st,
  search_inv simplex cosf sinf center t st ->
  match angle_loop simplex cosf sinf fuel center t radius angle st with
  | None => True
  | Some (inl st') => search_inv simplex cosf sinf center t st'
  | Some (inr p) => good_spot simplex cosf sinf center t p
  end.
Proof.
  induction fuel as [|n IH]; intros angle st Hst; cbn [angle_loop]; auto.
  destruct (flt angle (of_int 360)); [|exact Hst].
  pose proof (probe_inv center t radius angle st Hst) as P.
  destruct (probe simplex cosf sinf center t radius angle st) as [st'|p]; [|exact P].
  now apply IH.
Qed.

Lemma radius_loop_inv (center : vec3) (t : TerrainGenerator) (searchRadius : float)
    (budget fuel : nat) :
  forall radius st p,
  search_inv simplex cosf sinf center t st ->
  radius_loop simplex cosf sinf fuel budget center t searchRadius radius st = Some p ->
  good_spot simplex cosf sinf center t p.
Proof.
  induction fuel as [|n IH]; intros radius st p Hst; cbn [radius_loop]; [discriminate|].
  destruct (fle radius searchRadius).
  - pose proof (angle_loop_inv center t radius budget zero st Hst) as A.
    destruct (angle_loop simplex cosf sinf budget center t radius zero st) as [[st'|q]|];
      try discriminate.
    + now apply IH.
    + intros H. injection H as <-. exact A.
  - intros H. injection H as <-. apply Hst.
Qed.

(** X14.  Whatever position [FindNearbyFlatPosition] returns over a
    non-null terrain lies on the terrain surface (its height is
    [GetHeightAt] at its [x] and [z]), and the height variation around it is
    not larger than the variation around the centre it was asked about. *)
Theorem FindNearbyFlatPosition_is_no_worse_than_center
    (fuel : nat) (center p : vec3) (t : TerrainGenerator) (searchRadius : float) :
  FindNearbyFlatPosition simplex cosf sinf fuel center (Some t) searchRadius = Some p ->
  vy p = GetHeightAt simplex t (vx p) (vz p) /\
  flt (GetAreaHeightVariation simplex cosf sinf center (Some t) (lit 3 2))
      (GetAreaHeightVariation simplex cosf sinf p (Some t) (lit 3 2)) = false.
Proof.
  unfold FindNearbyFlatPosition.
  set (best := mkvec3 (vx center) (GetHeightAt simplex t (vx center) (vz center)) (vz center)).
  assert (G : good_spot simplex cosf sinf center t best).
  { split; [reflexivity|].
    change (GetAreaHeightVariation simplex cosf sinf best (Some t) (lit 3 2))
      with (GetAreaHeightVariation simplex cosf sinf center (Some t) (lit 3 2)).
    apply flt_irrefl. }
  destruct (fle _ (lit 3 10)).
  - intros H. injection H as <-. exact G.
  - intros H. eapply radius_loop_inv; [|exact H]. split; [reflexivity | exact G].
Qed.

(** *** Termination *)

Lemma angle_loop_fuel (center : vec3) (t : TerrainGenerator) (radius : float) (fuel : nat) :
  forall fuel' angle st r,
  angle_loop simplex cosf sinf fuel center t radius angle st = Some r ->
  (fuel <= fuel')%nat ->
  angle_loop simplex cosf sinf fuel' center t radius angle st = Some r.
Proof.
  induction fuel as [|n IH]; intros fuel' angle st r; cbn [angle_loop]; [discriminate|].
  intros H Hle. destruct fuel' as [|n']; [lia|]. cbn [angle_loop].
  destruct (flt angle (of_int 360)); [|exact H].
  destruct (probe simplex cosf sinf center t radius angle st) as [st'|p]; [|exact H].
  apply IH; [exact H | lia].
Qed.

Lemma radius_loop_fuel (center : vec3) (t : TerrainGenerator) (searchRadius : float)
    (budget budget' fuel : nat) :
  (budget <= budget')%nat ->
  forall fuel' radius st p,
  radius_loop simplex cosf sinf fuel budget center t searchRadius radius st = Some p ->
  (fuel <= fuel')%nat ->
  radius_loop simplex cosf sinf fuel' budget' center t searchRadius radius st = Some p.
Proof.
  intros Hb. induction fuel as [|n IH]; intros fuel' radius st p; cbn [radius_loop];
    [discriminate|].
  intros H Hle. destruct fuel' as [|n']; [lia|]. cbn [radius_loop].
  destruct (fle radius searchRadius); [|exact H].
  destruct (angle_loop simplex cosf sinf budget center t radius zero st) as [r|] eqn:A;
    [|discriminate].
  rewrite (angle_loop_fuel center t radius budget budget' zero st r A Hb).
  destruct r as [st'|q]; [|exact H]. apply IH; [exact H | lia].
Qed.

Lemma angle_steps (k : Z) :
  0 <= k < 12 ->
  flt (of_int (30 * k)) (of_int 360) = true /\
  fadd (of_int (30 * k)) (of_int 30) = of_int (30 * (k + 1)).
Proof.
  intros Hk.
  assert (H : forallb (fun k => flt (of_int (30 * k)) (of_int 360) &&
                                float_eqb (fadd (of_int (30 * k)) (of_int 30))
                                          (of_int (30 * (k + 1))))
                      (zrange 0 12) = true) by (vm_compute; reflexivity).
  rewrite forallb_forall in H. specialize (H k). rewrite In_zrange in H.
  specialize (H ltac:(lia)). apply andb_prop in H. destruct H as [H1 H2].
  split; [exact H1 | now apply float_eqb_eq].
Qed.

(** The inner loop ends after the twelve angles 0, 30, ..., 330. *)
Lemma angle_loop_ends (center : vec3) (t : TerrainGenerator) (radius : float) (n : nat) :
  forall k st, k + Z.of_nat n = 12 -> 0 <= k ->
  angle_loop simplex cosf sinf (S n) center t radius (of_int (30 * k)) st <> None.
Proof.
  induction n as [|n IH]; intros k st Hk H0; cbn [angle_loop].
  - replace k with 12 by lia. discriminate.
  - destruct (angle_steps k ltac:(lia)) as [H1 H2]. rewrite H1.
    destruct (probe simplex cosf sinf center t radius (of_int (30 * k)) st) as [st'|p];
      [|discriminate].
    rewrite H2. apply IH; lia.
Qed.

Lemma radius_steps (k : Z) : 1 <= k <= 1000 -> fadd (of_int k) one = of_int (k + 1).
Proof.
  intros Hk.
  assert (H : forallb (fun k => float_eqb (fadd (of_int k) one) (of_int (k + 1)))
                      (zrange 1 1000) = true) by (vm_compute; reflexivity).
  rewrite forallb_forall in H. apply float_eqb_eq, H, In_zrange. lia.
Qed.

Lemma radius_loop_ends (center : vec3) (t : TerrainGenerator) (searchRadius : float)
    (budget : nat) (n : nat) :
  flt (of_int 1000) searchRadius = false -> (13 <= budget)%nat ->
  forall k st, k + Z.of_nat n = 1001 -> 1 <= k ->
  radius_loop simplex cosf sinf (S n) budget center t searchRadius (of_int k) st <> None.
Proof.
  intros Hsr Hb. induction n as [|n IH]; intros k st Hk H1; cbn [radius_loop].
  - replace k with 1001 by lia.
    destruct (fle (of_int 1001) searchRadius) eqn:E; [|discriminate].
    exfalso. assert (L : flt (of_int 1000) (of_int 1001) = true) by (vm_compute; reflexivity).
    rewrite (flt_fle_trans _ _ _ L E) in Hsr. discriminate.
  - destruct (fle (of_int k) searchRadius); [|discriminate].
    destruct (angle_loop simplex cosf sinf budget center t (of_int k) zero st) as [r|] eqn:A.
    + destruct r as [st'|q]; [|discriminate].
      rewrite (radius_steps k) by lia. apply IH; lia.
    + exfalso. destruct budget as [|b]; [lia|].
      pose proof (angle_loop_ends center t (of_int k) 12 0 st eq_refl ltac:(lia)) as T.
      change (of_int (30 * 0)) with zero in T.
      destruct (angle_loop simplex cosf sinf 13 center t (of_int k) zero st) as [r|] eqn:A13;
        [|now apply T].
      rewrite (angle_loop_fuel center t (of_int k) 13 (S b) zero st r A13) in A by lia.
      discriminate.
Qed.

(** X15.  [FindNearbyFlatPosition] terminates for every search radius that
    is not above 1000: 1001 passes of each loop reach a [return], and more
    passes give the same position. *)
Theorem FindNearbyFlatPosition_terminates
    (center : vec3) (terrain : option TerrainGenerator) (searchRadius : float) :
  flt (of_int 1000) searchRadius = false ->
  exists p, forall fuel, (1001 <= fuel)%nat ->
    FindNearbyFlatPosition simplex cosf sinf fuel center terrain searchRadius = Some p.
Proof.
  intros Hsr. destruct terrain as [t|]; [|exists center; reflexivity].
  unfold FindNearbyFlatPosition.
  destruct (fle _ (lit 3 10)); [eexists; reflexivity|].
  set (st := (_, _)).
  pose proof (radius_loop_ends center t searchRadius 1001 1000 Hsr ltac:(lia) 1 st
                eq_refl ltac:(lia)) as T.
  change (of_int 1) with one in T.
  destruct (radius_loop simplex cosf sinf 1001 1001 center t searchRadius one st) as [p|] eqn:R;
    [|now contradiction T].
  exists p. intros fuel Hf.
  eapply radius_loop_fuel; [| exact R | exact Hf]. exact Hf.
Qed.

End FlatSearch.

Section VertexLayout.

Variable simplex : vec2 -> float.

Lemma texCoords_accumulate_normals (idx : list Z) (vs : list TerrainVertex) :
  map texCoord (accumulate_normals idx vs) = map texCoord vs.
Proof.
  remember (length idx) as n eqn:Hn.
  assert (Hle : (length idx <= n)%nat) by lia. clear Hn.
  revert idx vs Hle. induction n as [|n IH]; intros idx vs Hle.
  - destruct idx; [reflexivity | simpl in Hle; lia].
  - destruct idx as [|i0 [|i1 [|i2 rest]]]; try reflexivity.
    simpl. rewrite IH by (simpl in Hle; lia).
    rewrite !map_update_at; auto.
Qed.

Lemma texCoords_CreateChunk (t : TerrainGenerator) (cx cz : Z) :
  map texCoord (vertices (CreateChunk simplex t cx cz)) =
  flat_map (fun z => map (fun x => texCoord (chunk_vertex simplex t cx cz x z))
                         (zrange 0 (m_chunkSize t)))
           (zrange 0 (m_chunkSize t)).
Proof.
  unfold CreateChunk, AssignBiomeColors, CalculateNormals, GenerateChunkVertices; simpl.
  rewrite !map_map. simpl.
  change (map (fun x => texCoord x)) with (map texCoord).
  rewrite texCoords_accumulate_normals, map_map. simpl.
  rewrite flat_map_concat_map, concat_map, map_map, <- flat_map_concat_map.
  apply flat_map_ext. intros z. now rewrite map_map.
Qed.

Lemma texCoord_vertex_of (t : TerrainGenerator) (cx cz x z : Z) :
  0 <= x < m_chunkSize t -> 0 <= z < m_chunkSize t ->
  texCoord (vertex_of t (CreateChunk simplex t cx cz) x z) =
  texCoord (chunk_vertex simplex t cx cz x z).
Proof.
  intros Hx Hz. unfold vertex_of.
  rewrite <- (map_nth texCoord), texCoords_CreateChunk.
  replace (Z.to_nat (z * m_chunkSize t + x))
    with (Z.to_nat z * Z.to_nat (m_chunkSize t) + Z.to_nat x)%nat by nia.
  rewrite (nth_flat_map_rows _ (Z.to_nat (m_chunkSize t)) _ _ _ 0).
  - rewrite nth_zrange by lia.
    rewrite (nth_indep _ _ (texCoord (chunk_vertex simplex t cx cz 0 (0 + Z.of_nat (Z.to_nat z)))))
      by (rewrite length_map, length_zrange; lia).
    rewrite (map_nth (fun x => texCoord (chunk_vertex simplex t cx cz x _))).
    rewrite nth_zrange by lia.
    now rewrite !Z.add_0_l, !Z2Nat.id by lia.
  - intros r. now rewrite length_map, length_zrange.
  - rewrite length_zrange. lia.
  - lia.
Qed.

(** X16.  The vertex vector of a created chunk is the grid in row-major
    order: for [0 <= x, z < chunkSize], element [z * chunkSize + x] lies at
    world [x] and [z] [chunk * chunkScale + grid * (chunkScale / (chunkSize - 1))],
    at the height of the height field there, with texture coordinate
    [(x / (chunkSize - 1), z / (chunkSize - 1))]; the normal and colour passes
    move no vertex. *)
Theorem created_chunk_is_row_major_grid (t : TerrainGenerator) (chunkX chunkZ x z : Z) :
  0 <= x < m_chunkSize t -> 0 <= z < m_chunkSize t ->
  let stepSize := fdiv (m_chunkScale t) (of_int (m_chunkSize t - 1)) in
  let worldX := fadd (fmul (of_int chunkX) (m_chunkScale t)) (fmul (of_int x) stepSize) in
  let worldZ := fadd (fmul (of_int chunkZ) (m_chunkScale t)) (fmul (of_int z) stepSize) in
  let v := nth (Z.to_nat (z * m_chunkSize t + x))
               (vertices (CreateChunk simplex t chunkX chunkZ)) default_vertex in
  position v = mkvec3 worldX (GetHeightAt simplex t worldX worldZ) worldZ /\
  texCoord v = mkvec2 (fdiv (of_int x) (of_int (m_chunkSize t - 1)))
                      (fdiv (of_int z) (of_int (m_chunkSize t - 1))).
Proof.
  intros Hx Hz stepSize worldX worldZ v. split.
  - exact (position_vertex_of simplex t chunkX chunkZ x z Hx Hz).
  - exact (texCoord_vertex_of t chunkX chunkZ x z Hx Hz).
Qed.

End VertexLayout.

Lemma vertex_3_5_of_chunk_1_2 :
  texCoord (nth (Z.to_nat (5 * m_chunkSize app_terrain + 3))
                (vertices (CreateChunk ramp_noise app_terrain 1 2)) default_vertex) =
  mkvec2 (fdiv (of_int 3) (of_int (m_chunkSize app_terrain - 1)))
         (fdiv (of_int 5) (of_int (m_chunkSize app_terrain - 1))).
Proof.
  refine (proj2 (created_chunk_is_row_major_grid ramp_noise app_terrain 1 2 3 5 _ _));
    (split; [lia | reflexivity]).
Defined.

(** ** Further runs on concrete inputs *)

Lemma second_call_at_origin_changes_nothing :
  GenerateTerrainAt flat_noise (GenerateTerrainAt flat_noise small_terrain origin) origin =
  GenerateTerrainAt flat_noise small_terrain origin.
Proof.
  refine (GenerateTerrainAt_twice_same_center flat_noise small_terrain origin _ _ _).
  - reflexivity.
  - reflexivity.
  - vm_compute. reflexivity.
Defined.

Lemma first_call_creates_window_chunks :
  exists created,
    (length created <= 49)%nat /\
    m_chunks (GenerateTerrainAt flat_noise small_terrain origin) =
      CleanupDistantChunks small_terrain origin (m_chunks small_terrain ++ created).
Proof.
  destruct (GenerateTerrainAt_creates_window_chunks flat_noise small_terrain origin)
    as [created [H1 [_ H3]]].
  - vm_compute. reflexivity.
  - exists created. split; assumption.
Defined.

Lemma first_call_state_is_reachable : reachable flat_noise first_call_state.
Proof. exists 2, (of_int 8), [OpGenerateTerrainAt origin]. reflexivity. Defined.

(** The collision mesh of the 49 chunks of a first call of the 2 x 2
    generator: 196 vertices and 294 indices, all in range; the first chunk
    keeps its indices and those of the second chunk are shifted by the four
    vertices of the first. *)
Lemma collision_mesh_after_first_call :
  length (fst (GetCollisionData first_call_state [] [])) = 196%nat /\
  length (snd (GetCollisionData first_call_state [] [])) = 294%nat /\
  firstn 12 (snd (GetCollisionData first_call_state [] []))
    = [0; 2; 1; 1; 2; 3; 4; 6; 5; 5; 6; 7] /\
  Forall (fun i => 0 <= i < Z.of_nat (length (fst (GetCollisionData first_call_state [] []))))
         (snd (GetCollisionData first_call_state [] [])).
Proof.
  split; [vm_compute; reflexivity|]. split; [vm_compute; reflexivity|].
  split; [vm_compute; reflexivity|].
  exact (proj1 (proj2 (proj2 (proj2
           (GetCollisionData_indices_in_range flat_noise first_call_state [] []
              first_call_state_is_reachable))))).
Defined.

Lemma first_call_store_is_generated :
  Forall (fun c => isGenerated c = true) (m_chunks first_call_state).
Proof.
  refine (Forall_impl _ _ (reachable_store_is_near_and_uniform flat_noise first_call_state
                             first_call_state_is_reachable)).
  intros c H. apply H.
Defined.

Lemma first_call_collision_vertices :
  fst (GetCollisionData first_call_state [] []) =
  flat_map (fun c => map position (vertices c)) (m_chunks first_call_state).
Proof.
  exact (proj1 (GetCollisionData_emits_every_chunk flat_noise first_call_state [] []
                  first_call_state_is_reachable)).
Defined.

Lemma streamed_mesh_lies_on_height_field :
  Forall (on_height_field ramp_noise
            (run ramp_noise small_terrain [OpGenerateTerrainAt origin; OpResetTerrainUpdateFlag]))
         (m_chunks
            (run ramp_noise small_terrain [OpGenerateTerrainAt origin; OpResetTerrainUpdateFlag])).
Proof.
  refine (stored_mesh_lies_on_height_field ramp_noise small_terrain
            [OpGenerateTerrainAt origin; OpResetTerrainUpdateFlag] _ _); reflexivity.
Defined.

Lemma level_ground_is_flat_for_larger_tolerance :
  fle zero zero = true /\
  IsPositionFlat flat_noise cos_tab sin_tab (mkvec3 zero zero zero) (Some app_terrain) one = true.
Proof.
  refine (IsPositionFlat_monotone flat_noise cos_tab sin_tab (mkvec3 zero zero zero)
            (Some app_terrain) zero one _ _); vm_compute; reflexivity.
Defined.

Lemma centerChunk_at_20_13 :
  centerChunk app_terrain (mkvec2 (of_int 20) (of_int 13)) =
  centerChunk_floor app_terrain (mkvec2 (of_int 20) (of_int 13)).
Proof.
  refine (centerChunk_is_floor_for_nonnegative_quotients app_terrain
            (mkvec2 (of_int 20) (of_int 13)) _ _ _ _);
    vm_compute; try reflexivity; intros H; discriminate H.
Defined.

Lemma origin_suits_chest_and_key :
  LayoutManager.IsWithinTerrainBounds (mkvec3 zero zero zero) = true /\
  LayoutManager.IsPositionSuitable flat_noise cos_tab sin_tab (Some app_terrain)
                                   (mkvec3 zero zero zero) "key" = true.
Proof.
  refine (IsPositionSuitable_chest_is_strictest flat_noise cos_tab sin_tab (Some app_terrain)
            (mkvec3 zero zero zero) "chest" "key" _ _).
  - vm_compute. reflexivity.
  - intros H. discriminate H.
Defined.

Lemma spacing_test_on_part_of_the_list :
  LayoutManager.CheckMinimumDistance (mkvec3 (of_int 4) zero zero)
                                     [mkvec3 (of_int (-4)) zero zero] one = true.
Proof.
  refine (CheckMinimumDistance_monotone (mkvec3 (of_int 4) zero zero)
            [mkvec3 (of_int (-4)) zero zero; mkvec3 zero zero (of_int 4)]
            [mkvec3 (of_int (-4)) zero zero] (of_int 2) one _ _ _).
  - vm_compute. reflexivity.
  - intros a [<- | []]. left. reflexivity.
  - vm_compute. reflexivity.
Defined.

Lemma origin_chunk_is_not_rebuilt :
  chunk_at app_terrain 1 0 (CreateChunk flat_noise app_terrain 0 0) = (1 =? 0) && (0 =? 0) /\
  (In (CreateChunk flat_noise app_terrain 0 0) [CreateChunk flat_noise app_terrain 0 0] ->
   window_step flat_noise app_terrain ([CreateChunk flat_noise app_terrain 0 0], false) (0, 0)
     = ([CreateChunk flat_noise app_terrain 0 0], false)).
Proof.
  refine (shipped_geometry_has_no_duplicate_chunks flat_noise app_terrain
            [CreateChunk flat_noise app_terrain 0 0] false 1 0 0 0 _ _ _ _);
    try reflexivity; lia.
Defined.

Lemma flat_center_is_returned :
  vy (mkvec3 zero zero zero) = GetHeightAt flat_noise app_terrain zero zero /\
  flt (GetAreaHeightVariation flat_noise cos_tab sin_tab (mkvec3 zero zero zero)
                              (Some app_terrain) (lit 3 2))
      (GetAreaHeightVariation flat_noise cos_tab sin_tab (mkvec3 zero zero zero)
                              (Some app_terrain) (lit 3 2)) = false.
Proof.
  refine (FindNearbyFlatPosition_is_no_worse_than_center flat_noise cos_tab sin_tab 0
            (mkvec3 zero zero zero) (mkvec3 zero zero zero) app_terrain (of_int 5) _).
  vm_compute. reflexivity.
Defined.

Lemma search_of_radius_5_terminates :
  exists p, forall fuel, (1001 <= fuel)%nat ->
    FindNearbyFlatPosition cliff_noise cos_tab sin_tab fuel (mkvec3 zero zero zero)
                           (Some spike_terrain) (of_int 5) = Some p.
Proof.
  refine (FindNearbyFlatPosition_terminates cliff_noise cos_tab sin_tab (mkvec3 zero zero zero)
            (Some spike_terrain) (of_int 5) _).
  vm_compute. reflexivity.
Defined.
